(** * Interrupt masking and critical sections on Cortex-M (interrupt_handling.c)

    A shallow embedding of [src/interrupt_handling.c] and of the macros of
    [src/interrupt_handling.h].  The C functions become functions in a small
    state monad over a register file; the hardware they drive (PRIMASK,
    BASEPRI, the NVIC enable bits, ICSR, the priority registers) is modelled
    next to them, and every register write and barrier is logged so that the
    order of the effects can be stated. *)

From Stdlib Require Import ZArith Lia Bool List.
From stdpp Require Import base numbers list.
Local Open Scope Z_scope.

(** ** C integer conversions *)

Module CInt.

Definition to_uint8 (x : Z) : Z := x mod 2 ^ 8.
Definition to_uint32 (x : Z) : Z := x mod 2 ^ 32.
Definition to_int8 (x : Z) : Z := (x + 2 ^ 7) mod 2 ^ 8 - 2 ^ 7.
Definition to_int16 (x : Z) : Z := (x + 2 ^ 15) mod 2 ^ 16 - 2 ^ 15.
Definition to_int32 (x : Z) : Z := (x + 2 ^ 31) mod 2 ^ 32 - 2 ^ 31.

(** [~x] on a 32-bit unsigned operand. *)
Definition not32 (x : Z) : Z := Z.land (Z.lnot x) 0xFFFFFFFF.

Definition is_uint32 (x : Z) : bool := (0 <=? x) && (x <? 2 ^ 32).

End CInt.
Import CInt.

(** ** interrupt_handling.h: the mask type *)

Definition MAX_NVIC_REG_WORDS : Z := 8.

(** [typedef struct { uint32_t reg[MAX_NVIC_REG_WORDS]; } NVIC_Mask_t;] *)
Record NVIC_Mask_t : Type := Build_NVIC_Mask { reg : list Z }.

(** [mask.reg[i]] and [mask.reg[i] = w]. *)
Definition reg_get (mask : NVIC_Mask_t) (i : Z) : Z := reg mask !!! Z.to_nat i.
Definition reg_set (mask : NVIC_Mask_t) (i : Z) (w : Z) : NVIC_Mask_t :=
  Build_NVIC_Mask (<[Z.to_nat i := w]> (reg mask)).

(** The values a C object of type [NVIC_Mask_t] can hold: eight 32-bit words. *)
Definition wf_mask (mask : NVIC_Mask_t) : bool :=
  (length (reg mask) =? 8)%nat && forallb is_uint32 (reg mask).

(** [NVIC_Mask_t m = {0};] *)
Definition zero_mask : NVIC_Mask_t := Build_NVIC_Mask (replicate 8 0).

(** Word-wise combination of two masks, as the NVIC applies a struct write. *)
Definition mask_zip (f : Z -> Z -> Z) (a b : NVIC_Mask_t) : NVIC_Mask_t :=
  Build_NVIC_Mask (zip_with f (reg a) (reg b)).

(** ** The register file *)

(** Register writes and barriers, in program order. *)
Inductive Event : Type :=
| EvCPSID                       (* __disable_irq: PRIMASK := 1 *)
| EvCPSIE                       (* __enable_irq:  PRIMASK := 0 *)
| EvBASEPRI (v : Z)             (* __set_BASEPRI(v) *)
| EvISB                         (* __ISB() *)
| EvISER (m : NVIC_Mask_t)      (* struct write to NVIC->ISER[0..7] *)
| EvICER (m : NVIC_Mask_t).     (* struct write to NVIC->ICER[0..7] *)

(** The hardware state the module touches, and its one global variable.
    - [PRIMASK] is a one-bit register.
    - [BASEPRI] is an eight-bit register: a write keeps the low eight bits.
    - [NVIC_enable] is the enable bit of each of the 8 x 32 interrupt lines;
      the NVIC shows it through both [ISER] and [ICER].
    - [ICSR] is [SCB->ICSR].
    - [IPR] gives the priority [NVIC_GetPriority] reports for a line.
    - [basePriLevel] is the [static int8_t basePriLevel] of the C file.
    - [trace] logs the writes and barriers, oldest first. *)
Record Machine : Type := Build_Machine {
  PRIMASK : bool;
  BASEPRI : Z;
  NVIC_enable : NVIC_Mask_t;
  ICSR : Z;
  IPR : Z -> Z;
  basePriLevel : Z;
  trace : list Event
}.

Definition set_PRIMASK (b : bool) (s : Machine) : Machine :=
  Build_Machine b (BASEPRI s) (NVIC_enable s) (ICSR s) (IPR s) (basePriLevel s) (trace s).
Definition set_BASEPRI (v : Z) (s : Machine) : Machine :=
  Build_Machine (PRIMASK s) v (NVIC_enable s) (ICSR s) (IPR s) (basePriLevel s) (trace s).
Definition set_NVIC_enable (m : NVIC_Mask_t) (s : Machine) : Machine :=
  Build_Machine (PRIMASK s) (BASEPRI s) m (ICSR s) (IPR s) (basePriLevel s) (trace s).
Definition set_basePriLevel (v : Z) (s : Machine) : Machine :=
  Build_Machine (PRIMASK s) (BASEPRI s) (NVIC_enable s) (ICSR s) (IPR s) v (trace s).
Definition log (e : Event) (s : Machine) : Machine :=
  Build_Machine (PRIMASK s) (BASEPRI s) (NVIC_enable s) (ICSR s) (IPR s) (basePriLevel s)
    (trace s ++ [e]).

(** ** The state monad of the C functions *)

Definition M (A : Type) : Type := Machine -> A * Machine.

#[global] Instance M_ret : MRet M := fun A a s => (a, s).
#[global] Instance M_bind : MBind M :=
  fun A B f m s => let '(a, s1) := m s in f a s1.

Definition exec {A : Type} (m : M A) (s : Machine) : Machine := snd (m s).
Definition eval {A : Type} (m : M A) (s : Machine) : A := fst (m s).

(** ** CMSIS intrinsics and register accesses *)

Definition __get_PRIMASK : M Z := fun s => (Z.b2z (PRIMASK s), s).
Definition __disable_irq : M unit := fun s => (tt, log EvCPSID (set_PRIMASK true s)).
Definition __enable_irq : M unit := fun s => (tt, log EvCPSIE (set_PRIMASK false s)).
Definition __ISB : M unit := fun s => (tt, log EvISB s).

Definition __get_BASEPRI : M Z := fun s => (BASEPRI s, s).
Definition __set_BASEPRI (v : Z) : M unit :=
  fun s => (tt, log (EvBASEPRI v) (set_BASEPRI (Z.land v 0xFF) s)).

(** Reading [NVIC->ISER[0..7]] or [NVIC->ICER[0..7]] returns the enable bits. *)
Definition NVIC_ISER_read : M NVIC_Mask_t := fun s => (NVIC_enable s, s).
Definition NVIC_ICER_read : M NVIC_Mask_t := fun s => (NVIC_enable s, s).

(** The NVIC of the ARMv7-M and ARMv6-M architectures: writing [ISER]
    enables the lines whose bit is 1 in the written value and leaves the
    others as they are; writing [ICER] disables the lines whose bit is 1 and
    leaves the others as they are.  Every one of the 8 x 32 lines is taken to
    be implemented. *)
Definition NVIC_ISER_write (m : NVIC_Mask_t) : M unit :=
  fun s => (tt, log (EvISER m) (set_NVIC_enable (mask_zip Z.lor (NVIC_enable s) m) s)).
Definition NVIC_ICER_write (m : NVIC_Mask_t) : M unit :=
  fun s => (tt, log (EvICER m) (set_NVIC_enable (mask_zip Z.ldiff (NVIC_enable s) m) s)).

Definition SCB_ICSR_read : M Z := fun s => (ICSR s, s).
Definition NVIC_GetPriority (IRQn : Z) : M Z := fun s => (IPR s IRQn, s).

Definition get_basePriLevel : M Z := fun s => (basePriLevel s, s).
Definition put_basePriLevel (v : Z) : M unit := fun s => (tt, set_basePriLevel v s).

(** ** interrupt_handling.c *)

Section Target.

(** Values of the device and CMSIS headers ([stm32f4xx.h] is not part of the
    sources): the core generation, the number of implemented priority bits,
    two exception numbers and the [VECTACTIVE] field of [ICSR]. *)
Variable __CORTEX_M : Z.
Variable __NVIC_PRIO_BITS : Z.
Variable MemoryManagement_IRQn : Z.
Variable SVCall_IRQn : Z.
Variable SCB_ICSR_VECTACTIVE_Msk : Z.
Variable SCB_ICSR_VECTACTIVE_Pos : Z.

(** [#if (__CORTEX_M >= 3)] *)
Definition has_BASEPRI : bool := 3 <=? __CORTEX_M.

Definition INTERRUPT_LOWEST_PRIORITY : Z := if has_BASEPRI then 7 else 3.
Definition INTERRUPT_HIGHEST_PRIORITY : Z := 0.

Definition IS_EXCEPTION_NUM (IRQn : Z) : bool :=
  (-16 <=? to_int16 IRQn) && (to_int16 IRQn <? 0).
Definition IS_INTERRUPT_NUM (IRQn : Z) : bool :=
  (0 <=? to_int16 IRQn) && (to_int16 IRQn <? 0xF0).
Definition IS_IRQn (IRQn : Z) : bool :=
  IS_INTERRUPT_NUM IRQn || IS_EXCEPTION_NUM IRQn.
Definition IS_INT_LVL_VALID (intLevel : Z) : bool :=
  (INTERRUPT_HIGHEST_PRIORITY <? to_uint32 intLevel)
  && (to_uint32 intLevel <=? INTERRUPT_LOWEST_PRIORITY).

(** [(8U - __NVIC_PRIO_BITS)] *)
Definition BASEPRI_START_BIT : Z := to_uint32 (8 - __NVIC_PRIO_BITS).

(** [static int8_t basePriLevel = 3;] or [= -1;] *)
Definition basePriLevel_init : Z := if has_BASEPRI then 3 else -1.

(** [basePriLevel << BASEPRI_START_BIT], an [int], as the [uint32_t] it is
    converted to where it is written to or compared with the register. *)
Definition threshold_value (level : Z) : Z :=
  to_uint32 (Z.shiftl level BASEPRI_START_BIT).

(** *** PRIMASK *)

Definition PRIMASK_EnterCriticalSection : M Z :=
  irqState ← __get_PRIMASK;
  __disable_irq;;
  mret irqState.

Definition PRIMASK_ExitCriticalSection (irqState : Z) : M unit :=
  if irqState =? 0 then __enable_irq else mret tt.

Definition PRIMASK_DisableIrq : M unit := __disable_irq.
Definition PRIMASK_EnableIrq : M unit := __enable_irq.

Definition PRIMASK_TriggerPendingInterrupts : M unit :=
  primask ← __get_PRIMASK;
  if negb (Z.land primask 1 =? 0) then
    __enable_irq;;
    __ISB;;
    __disable_irq
  else mret tt.

(** Modelled from the spec: [PRIMASK_EnterNoInterruptsSection] is declared in
    the header and used by [NO_INTERRUPTS_SECTION], and the C file does not
    define it.  The specification has the accesses to the enable register run
    inside a full critical section, whose Enter reads the full-mask bit, sets
    it and returns the prior bit. *)
Definition PRIMASK_EnterNoInterruptsSection : M Z := PRIMASK_EnterCriticalSection.

(** Modelled from the spec: [PRIMASK_ExitNoInterruptsSection] is declared in
    the header, used by [NO_INTERRUPTS_SECTION] and not defined in the C file
    either.  The Exit of a full critical section clears the mask bit only if
    the state says it was clear before. *)
Definition PRIMASK_ExitNoInterruptsSection (irqState : Z) : M unit :=
  PRIMASK_ExitCriticalSection irqState.

(** [NO_INTERRUPTS_SECTION(inputSection)] *)
Definition NO_INTERRUPTS_SECTION {A : Type} (inputSection : M A) : M A :=
  irqState ← PRIMASK_EnterNoInterruptsSection;
  r ← inputSection;
  PRIMASK_ExitNoInterruptsSection irqState;;
  mret r.

(** *** BASEPRI *)

Definition BASEPRI_SetPriorityLevelThreshold (inputBasePriLevel : Z) : M bool :=
  if has_BASEPRI then
    if IS_INT_LVL_VALID inputBasePriLevel then
      put_basePriLevel (to_int8 inputBasePriLevel);;
      mret true
    else mret false
  else mret false.

Definition BASEPRI_GetPriorityLevelThreshold : M Z := get_basePriLevel.

Definition BASEPRI_EnterInterruptsDisabledByThresholdSection : M Z :=
  if has_BASEPRI then
    irqState ← __get_BASEPRI;
    level ← get_basePriLevel;
    __set_BASEPRI (threshold_value level);;
    mret irqState
  else PRIMASK_EnterCriticalSection.

Definition BASEPRI_ExitInterruptsDisabledByThresholdSection (irqState : Z) : M unit :=
  if has_BASEPRI then __set_BASEPRI irqState
  else PRIMASK_ExitCriticalSection irqState.

Definition BASEPRI_DisableIrqByThreshold : M unit :=
  if has_BASEPRI then
    level ← get_basePriLevel;
    __set_BASEPRI (threshold_value level)
  else PRIMASK_DisableIrq.

Definition BASEPRI_EnableIrqByThreshold : M unit :=
  if has_BASEPRI then __set_BASEPRI 0 else PRIMASK_EnableIrq.

Definition BASEPRI_TriggerPendingInterruptsByThreshold : M unit :=
  if has_BASEPRI then
    irqState ← __get_BASEPRI;
    level ← get_basePriLevel;
    if threshold_value level <=? irqState then
      __set_BASEPRI 0;;
      __ISB;;
      __set_BASEPRI irqState
    else mret tt
  else PRIMASK_TriggerPendingInterrupts.

(** *** NVIC masks *)

Definition NVIC_EnterSpecificInterruptDisabledSection (disable : NVIC_Mask_t)
  : M NVIC_Mask_t :=
  NO_INTERRUPTS_SECTION (
    nvicState ← NVIC_ICER_read;
    NVIC_ICER_write disable;;
    mret nvicState).

Definition NVIC_DisableSpecificInterrupts (disable : NVIC_Mask_t) : M unit :=
  NO_INTERRUPTS_SECTION (NVIC_ICER_write disable).

Definition NVIC_ExitSpecificInterruptDisabledSection (disable : NVIC_Mask_t) : M unit :=
  NVIC_DisableSpecificInterrupts disable.

Definition NVIC_EnableSpecificInterrupts (enable : NVIC_Mask_t) : M unit :=
  NO_INTERRUPTS_SECTION (NVIC_ISER_write enable).

(** The indices a loop [for (i = i0; i < MAX_NVIC_REG_WORDS; i++)] visits. *)
Definition loop_indices (i0 : Z) : list Z := seqZ i0 (MAX_NVIC_REG_WORDS - i0).

(** One iteration of the loop of [NVIC_TriggerSpecificPendingInterrupts]. *)
Definition trigger_step (enable : NVIC_Mask_t) (acc : NVIC_Mask_t * bool) (i : Z)
  : NVIC_Mask_t * bool :=
  let '(nvicMask, shouldTrigger) := acc in
  let nvicMask1 := reg_set nvicMask i (Z.land (reg_get nvicMask i) (reg_get enable i)) in
  let nvicMask2 :=
    reg_set nvicMask1 i (Z.land (not32 (reg_get nvicMask1 i)) (reg_get enable i)) in
  (nvicMask2, if negb (reg_get nvicMask2 i =? 0) then true else shouldTrigger).

(** The loop is written [for (size_t i; i < MAX_NVIC_REG_WORDS; i++)]: the
    counter has no initialiser.  [i_init] is the [size_t] value it happens to
    hold when the loop starts. *)
Definition NVIC_TriggerSpecificPendingInterrupts (i_init : Z) (enable : NVIC_Mask_t)
  : M unit :=
  nvicMask ← NO_INTERRUPTS_SECTION NVIC_ISER_read;
  let '(nvicMask, shouldTrigger) :=
    foldl (trigger_step enable) (nvicMask, false) (loop_indices i_init) in
  if shouldTrigger then
    NVIC_ISER_write nvicMask;;
    __ISB;;
    NVIC_ICER_write nvicMask
  else mret tt.

Definition NVIC_SetSpecificInterruptInAMask (irqNum : Z) (mask : NVIC_Mask_t)
  : NVIC_Mask_t :=
  if IS_INTERRUPT_NUM irqNum then
    let i := Z.shiftr (to_uint8 irqNum) 5 in
    reg_set mask i (Z.lor (reg_get mask i) (Z.shiftl 1 (Z.land (to_uint8 irqNum) 0x1F)))
  else mask.

Definition NVIC_ClearSpecificInterruptInAMask (irqNum : Z) (mask : NVIC_Mask_t)
  : NVIC_Mask_t :=
  if IS_INTERRUPT_NUM irqNum then
    let i := Z.shiftr (to_uint8 irqNum) 5 in
    reg_set mask i
      (Z.land (reg_get mask i) (not32 (Z.shiftl 1 (Z.land (to_uint8 irqNum) 0x1F))))
  else mask.

Definition NVIC_GetNvicIserMask : M NVIC_Mask_t :=
  NO_INTERRUPTS_SECTION NVIC_ISER_read.

(** The loop of [NVIC_IsNvicIserMaskDisabled], with its [break]. *)
Fixpoint iser_scan (mask nvicMask : NVIC_Mask_t) (indices : list Z) : bool :=
  match indices with
  | [] => true
  | i :: rest =>
      if negb (Z.land (reg_get mask i) (reg_get nvicMask i) =? 0) then false
      else iser_scan mask nvicMask rest
  end.

(** Here too the loop counter is declared without an initialiser. *)
Definition NVIC_IsNvicIserMaskDisabled (i_init : Z) (mask : NVIC_Mask_t) : M bool :=
  nvicMask ← NO_INTERRUPTS_SECTION NVIC_ISER_read;
  mret (iser_scan mask nvicMask (loop_indices i_init)).

Definition NVIC_IsIRQnDisabled (irqNum : Z) : M bool :=
  if IS_INTERRUPT_NUM irqNum then
    mask ← NVIC_ISER_read;
    mret (Z.land (reg_get mask (Z.shiftr (to_uint8 irqNum) 5))
                 (Z.shiftl 1 (Z.land (to_uint8 irqNum) 0x1F)) =? 0)
  else mret true.

(** *** Inspector *)

Definition IRQ_IsInIrqContext : M bool :=
  icsr ← SCB_ICSR_read;
  mret (negb (Z.land icsr SCB_ICSR_VECTACTIVE_Msk =? 0)).

(** The condition of the [ASSERT] at the head of [IRQ_IsIRQnBlocked]. *)
Definition IsIRQnBlocked_assert (irqNum : Z) : bool :=
  if has_BASEPRI then (MemoryManagement_IRQn <=? irqNum) && (irqNum <? 0xF0)
  else (SVCall_IRQn <=? irqNum) && (irqNum <? 0xF0).

(** [None] stands for a call that never returns: a failed [ASSERT] stays in
    [while (1)]. *)
Definition IRQ_IsIRQnBlocked (irqNum : Z) : M (option bool) :=
  if negb (IsIRQnBlocked_assert irqNum) then mret None
  else
    primask ← __get_PRIMASK;
    if negb (Z.land primask 1 =? 0) then mret (Some true)
    else
      disabled ← NVIC_IsIRQnDisabled irqNum;
      if (disabled : bool) then mret (Some true)
      else
        irqPri ← NVIC_GetPriority irqNum;
        belowThreshold ←
          (if has_BASEPRI then
             basepri ← __get_BASEPRI;
             mret (negb (basepri =? 0)
                   && (Z.shiftr basepri BASEPRI_START_BIT <=? irqPri))
           else mret false);
        if (belowThreshold : bool) then mret (Some true)
        else
          icsr ← SCB_ICSR_read;
          let activeIrq :=
            Z.shiftr (Z.land icsr SCB_ICSR_VECTACTIVE_Msk) SCB_ICSR_VECTACTIVE_Pos in
          if negb (activeIrq =? 0) then
            activePri ← NVIC_GetPriority (to_int32 (to_uint32 (activeIrq - 16)));
            if activePri <=? irqPri then mret (Some true) else mret (Some false)
          else mret (Some false).

Definition IRQ_AreAllIRQnsDisabled : M bool :=
  primask ← __get_PRIMASK;
  if has_BASEPRI then
    basepri ← __get_BASEPRI;
    level ← get_basePriLevel;
    mret ((Z.land primask 1 =? 1) || (threshold_value level <=? basepri))
  else mret (Z.land primask 1 =? 1).

(** ** Properly nested sections *)

(** A properly nested sequence of calls: nothing, a change of the configured
    threshold followed by more, or an Enter, a nested sequence, the matching
    Exit with the state that Enter returned, followed by more. *)
Inductive Nest : Type :=
| NDone
| NSetThreshold (level : Z) (rest : Nest)
| NSection (inner rest : Nest).

Fixpoint run_critical (p : Nest) : M unit :=
  match p with
  | NDone => mret tt
  | NSetThreshold level rest =>
      BASEPRI_SetPriorityLevelThreshold level;;
      run_critical rest
  | NSection inner rest =>
      irqState ← PRIMASK_EnterCriticalSection;
      run_critical inner;;
      PRIMASK_ExitCriticalSection irqState;;
      run_critical rest
  end.

Fixpoint run_threshold (p : Nest) : M unit :=
  match p with
  | NDone => mret tt
  | NSetThreshold level rest =>
      BASEPRI_SetPriorityLevelThreshold level;;
      run_threshold rest
  | NSection inner rest =>
      irqState ← BASEPRI_EnterInterruptsDisabledByThresholdSection;
      run_threshold inner;;
      BASEPRI_ExitInterruptsDisabledByThresholdSection irqState;;
      run_threshold rest
  end.

(** [n] sections nested in one another. *)
Fixpoint nested (n : nat) : Nest :=
  match n with
  | O => NDone
  | S n' => NSection (nested n') NDone
  end.

Fixpoint depth (p : Nest) : nat :=
  match p with
  | NDone => O
  | NSetThreshold _ rest => depth rest
  | NSection inner rest => Nat.max (S (depth inner)) (depth rest)
  end.

(** A sequence of threshold requests, and the results of the setter. *)
Fixpoint set_thresholds (levels : list Z) : M (list bool) :=
  match levels with
  | [] => mret []
  | level :: rest =>
      ok ← BASEPRI_SetPriorityLevelThreshold level;
      oks ← set_thresholds rest;
      mret (ok :: oks)
  end.

(** ** Vocabulary of the properties *)

(** The word and the bit the C code selects for a line. *)
Definition word_index (irqNum : Z) : Z := Z.shiftr (to_uint8 irqNum) 5.
Definition bit_index (irqNum : Z) : Z := Z.land (to_uint8 irqNum) 0x1F.

(** Line [line] is a member of the mask: bit [line mod 32] of word
    [line / 32]. *)
Definition mask_bit (mask : NVIC_Mask_t) (line : Z) : bool :=
  Z.testbit (reg_get mask (line / 32)) (line mod 32).

(** The threshold register is at or beyond the configured cutoff: the test
    that [IRQ_AreAllIRQnsDisabled] and
    [BASEPRI_TriggerPendingInterruptsByThreshold] both make. *)
Definition threshold_masking_active (s : Machine) : bool :=
  threshold_value (basePriLevel s) <=? BASEPRI s.

(** The word the loop of [NVIC_TriggerSpecificPendingInterrupts] computes
    from the snapshot word [x] and the target word [t]. *)
Definition pulse_word (x t : Z) : Z := Z.land (not32 (Z.land x t)) t.

(** What [NO_INTERRUPTS_SECTION] logs around its section when PRIMASK held
    [primask] before. *)
Definition section_events (primask : bool) : list Event :=
  EvCPSID :: (if primask then [] else [EvCPSIE]).

(** The machine at reset of the C program: [basePriLevel] holds its
    initialiser. *)
Definition initial (s : Machine) : Prop := basePriLevel s = basePriLevel_init.

(** ** Concrete machines *)

(** Every line enabled. *)
Definition all_enabled : NVIC_Mask_t := Build_NVIC_Mask (replicate 8 0xFFFFFFFF).

(** A machine outside any handler, every line at priority 1, nothing logged. *)
Definition machine (primask : bool) (basepri : Z) (enable : NVIC_Mask_t) (level : Z)
  : Machine :=
  Build_Machine primask basepri enable 0 (fun _ => 1) level [].

(** Three lines: A and C share the first word, B is in the second. *)
Definition line_A : Z := 0.
Definition line_B : Z := 32.
Definition line_C : Z := 1.
Definition mask_A : NVIC_Mask_t := NVIC_SetSpecificInterruptInAMask line_A zero_mask.
Definition mask_AB : NVIC_Mask_t := NVIC_SetSpecificInterruptInAMask line_B mask_A.
Definition mask_ABC : NVIC_Mask_t := NVIC_SetSpecificInterruptInAMask line_C mask_AB.
Definition mask_AC : NVIC_Mask_t := NVIC_SetSpecificInterruptInAMask line_C mask_A.
Definition mask_C : NVIC_Mask_t := NVIC_SetSpecificInterruptInAMask line_C zero_mask.

(** ** The vector table *)

(** Memory as the handler accessors see it: [VTOR] is [SCB->VTOR], the
    address of the vector table, and [word a] is the 32-bit word at byte
    address [a]. *)
Record Vectors : Type := Build_Vectors {
  VTOR : Z;
  word : Z -> Z
}.

(** The address of [((uint32_t * )SCB->VTOR)[(int16_t)irqNum + 16]]. *)
Definition vector_address (v : Vectors) (irqNum : Z) : Z :=
  VTOR v + 4 * (to_int16 irqNum + 16).

(** [NULL] is 0. *)
Definition NVIC_GetIRQnHandler (irqNum : Z) (v : Vectors) : Z :=
  if IS_IRQn irqNum then word v (vector_address v irqNum) else 0.

Definition NVIC_SetIRQnHandler (irqNum : Z) (handler : Z) (v : Vectors) : Vectors :=
  if IS_IRQn irqNum then
    Build_Vectors (VTOR v)
      (fun a => if a =? vector_address v irqNum then to_uint32 handler else word v a)
  else v.

(** The request the getter reflects after a sequence of requests: the last
    one the setter accepted, or the level configured before. *)
Fixpoint last_accepted (valid : Z -> bool) (current : Z) (levels : list Z) : Z :=
  match levels with
  | [] => current
  | level :: rest => last_accepted valid (if valid level then level else current) rest
  end.

(** * Properties *)

(** ** Bits and words *)

Lemma testbit_bit (k n : Z) : 0 <= k -> 0 <= n ->
  Z.testbit (Z.shiftl 1 k) n = (n =? k).
Proof.
  intros Hk Hn. rewrite Z.shiftl_1_l.
  destruct (Z.eqb_spec n k) as [->|Hne].
  - apply Z.pow2_bits_true; lia.
  - apply Z.pow2_bits_false; lia.
Qed.

Lemma land_bit_eqb (w k : Z) : 0 <= k ->
  (Z.land w (Z.shiftl 1 k) =? 0) = negb (Z.testbit w k).
Proof.
  intros Hk. destruct (Z.testbit w k) eqn:Hb; simpl.
  - apply Z.eqb_neq. intros H0.
    assert (Z.testbit (Z.land w (Z.shiftl 1 k)) k = false) as Hf
      by (rewrite H0; apply Z.bits_0).
    rewrite Z.land_spec, Hb, testbit_bit, Z.eqb_refl in Hf by lia. discriminate.
  - apply Z.eqb_eq. apply Z.bits_inj'. intros n Hn.
    rewrite Z.land_spec, Z.bits_0, testbit_bit by lia.
    destruct (Z.eqb_spec n k) as [->|_]; [rewrite Hb|]; auto using andb_false_r.
Qed.

Lemma testbit_not32 (x n : Z) : 0 <= n ->
  Z.testbit (not32 x) n = negb (Z.testbit x n) && (n <? 32).
Proof.
  intros Hn. unfold not32. change 0xFFFFFFFF with (Z.ones 32).
  rewrite Z.land_spec, Z.lnot_spec, Z.testbit_ones_nonneg by lia.
  reflexivity.
Qed.

Lemma is_uint32_range (w : Z) : is_uint32 w = true <-> 0 <= w < 2 ^ 32.
Proof. unfold is_uint32. rewrite andb_true_iff, Z.leb_le, Z.ltb_lt. tauto. Qed.

Lemma is_uint32_high (w n : Z) : is_uint32 w = true -> 32 <= n -> Z.testbit w n = false.
Proof.
  intros Hw Hn. apply is_uint32_range in Hw.
  destruct (Z.eq_dec w 0) as [->|Hw0]; [apply Z.bits_0|].
  apply Z.bits_above_log2; [lia|].
  assert (Z.log2 w < 32) by (apply Z.log2_lt_pow2; lia). lia.
Qed.

(** A 32-bit word is unchanged by masking with [~b] exactly when it shares no
    bit with [b]. *)
Lemma land_not32_id (w b : Z) : is_uint32 w = true ->
  Z.land w b = 0 -> Z.land w (not32 b) = w.
Proof.
  intros Hw H0. apply Z.bits_inj'. intros n Hn.
  rewrite Z.land_spec, testbit_not32 by lia.
  destruct (Z.testbit w n) eqn:Hb; [|reflexivity].
  assert (Z.testbit (Z.land w b) n = false) as Hf by (rewrite H0; apply Z.bits_0).
  rewrite Z.land_spec, Hb in Hf. simpl in Hf. rewrite Hf. simpl.
  destruct (Z.ltb_spec n 32); [reflexivity|].
  rewrite is_uint32_high in Hb by (auto; lia). discriminate.
Qed.

Lemma lor_land_not32 (w b : Z) : Z.land (Z.lor w b) (not32 b) = Z.land w (not32 b).
Proof.
  apply Z.bits_inj'. intros n Hn.
  rewrite !Z.land_spec, Z.lor_spec, testbit_not32 by lia.
  destruct (Z.testbit w n), (Z.testbit b n); reflexivity.
Qed.

(** ** Line numbers *)

Lemma to_int16_small (x : Z) : - 2 ^ 15 <= x < 2 ^ 15 -> to_int16 x = x.
Proof. intros H. unfold to_int16. rewrite Z.mod_small; lia. Qed.

Lemma to_uint8_small (x : Z) : 0 <= x < 2 ^ 8 -> to_uint8 x = x.
Proof. intros H. unfold to_uint8. apply Z.mod_small; lia. Qed.

Lemma to_uint8_range (x : Z) : 0 <= to_uint8 x < 256.
Proof. unfold to_uint8. apply Z.mod_pos_bound. lia. Qed.

Lemma IS_INTERRUPT_NUM_valid (irqNum : Z) :
  0 <= irqNum < 0xF0 -> IS_INTERRUPT_NUM irqNum = true.
Proof.
  intros H. unfold IS_INTERRUPT_NUM. rewrite to_int16_small by lia.
  apply andb_true_iff. split; [apply Z.leb_le|apply Z.ltb_lt]; lia.
Qed.

Lemma IS_INTERRUPT_NUM_invalid (irqNum : Z) :
  - 2 ^ 15 <= irqNum < 0 \/ 0xF0 <= irqNum < 2 ^ 15 -> IS_INTERRUPT_NUM irqNum = false.
Proof.
  intros H. unfold IS_INTERRUPT_NUM. rewrite to_int16_small by lia.
  apply andb_false_iff. destruct H; [left; apply Z.leb_gt|right; apply Z.ltb_ge]; lia.
Qed.

Lemma word_index_range (irqNum : Z) : 0 <= word_index irqNum < 8.
Proof.
  unfold word_index. pose proof (to_uint8_range irqNum).
  rewrite Z.shiftr_div_pow2 by lia. change (2 ^ 5) with 32.
  split; [apply Z.div_pos; lia | apply Z.div_lt_upper_bound; lia].
Qed.

Lemma bit_index_range (irqNum : Z) : 0 <= bit_index irqNum < 32.
Proof.
  unfold bit_index. change 0x1F with (Z.ones 5).
  rewrite Z.land_ones by lia. apply Z.mod_pos_bound. lia.
Qed.

Lemma word_index_valid (irqNum : Z) : 0 <= irqNum < 256 -> word_index irqNum = irqNum / 32.
Proof.
  intros H. unfold word_index. rewrite to_uint8_small by lia.
  rewrite Z.shiftr_div_pow2 by lia. reflexivity.
Qed.

Lemma bit_index_valid (irqNum : Z) : 0 <= irqNum < 256 -> bit_index irqNum = irqNum mod 32.
Proof.
  intros H. unfold bit_index. rewrite to_uint8_small by lia.
  change 0x1F with (Z.ones 5). rewrite Z.land_ones by lia. reflexivity.
Qed.

(** ** Masks as arrays of eight words *)

Lemma wf_mask_length (m : NVIC_Mask_t) : wf_mask m = true -> length (reg m) = 8%nat.
Proof.
  unfold wf_mask. intros H. apply andb_true_iff in H as [H _].
  by apply Nat.eqb_eq in H.
Qed.

Lemma wf_mask_word (m : NVIC_Mask_t) (i : Z) :
  wf_mask m = true -> 0 <= i < 8 -> is_uint32 (reg_get m i) = true.
Proof.
  intros Hwf Hi. pose proof (wf_mask_length m Hwf) as Hlen.
  unfold wf_mask in Hwf. apply andb_true_iff in Hwf as [_ Hall].
  rewrite forallb_forall in Hall. apply Hall, list_elem_of_In.
  unfold reg_get. apply list_elem_of_lookup_total_2. lia.
Qed.

Lemma reg_get_set_eq (m : NVIC_Mask_t) (i w : Z) :
  length (reg m) = 8%nat -> 0 <= i < 8 -> reg_get (reg_set m i w) i = w.
Proof.
  intros Hlen Hi. unfold reg_get, reg_set. simpl.
  apply list_lookup_total_insert_eq. lia.
Qed.

Lemma reg_get_set_ne (m : NVIC_Mask_t) (i j w : Z) :
  0 <= i -> 0 <= j -> i <> j -> reg_get (reg_set m i w) j = reg_get m j.
Proof.
  intros Hi Hj Hne. unfold reg_get, reg_set. simpl.
  apply list_lookup_total_insert_ne. lia.
Qed.

Lemma reg_set_length (m : NVIC_Mask_t) (i w : Z) :
  length (reg (reg_set m i w)) = length (reg m).
Proof. unfold reg_set. simpl. apply length_insert. Qed.

Lemma reg_set_set (m : NVIC_Mask_t) (i a b : Z) :
  reg_set (reg_set m i a) i b = reg_set m i b.
Proof. unfold reg_set. simpl. by rewrite list_insert_insert_eq. Qed.

Lemma reg_set_get (m : NVIC_Mask_t) (i : Z) :
  length (reg m) = 8%nat -> 0 <= i < 8 -> reg_set m i (reg_get m i) = m.
Proof.
  intros Hlen Hi. destruct m as [l]. unfold reg_set, reg_get. simpl in *. f_equal.
  apply list_insert_id, list_lookup_lookup_total_lt. lia.
Qed.

(** Two masks with the same eight words are the same mask. *)
Lemma mask_ext (a b : NVIC_Mask_t) :
  length (reg a) = 8%nat -> length (reg b) = 8%nat ->
  (forall i, 0 <= i < 8 -> reg_get a i = reg_get b i) -> a = b.
Proof.
  intros Hla Hlb Heq. destruct a as [la], b as [lb]. simpl in *. f_equal.
  apply list_eq_same_length with 8%nat; [done|done|].
  intros n x y Hn Hx Hy.
  specialize (Heq (Z.of_nat n)). unfold reg_get in Heq. simpl in Heq.
  rewrite Nat2Z.id in Heq.
  apply list_lookup_total_correct in Hx, Hy. rewrite <- Hx, <- Hy. apply Heq. lia.
Qed.

Lemma mask_zip_length (f : Z -> Z -> Z) (a b : NVIC_Mask_t) :
  length (reg a) = 8%nat -> length (reg b) = 8%nat ->
  length (reg (mask_zip f a b)) = 8%nat.
Proof. intros Ha Hb. unfold mask_zip. simpl. rewrite length_zip_with. lia. Qed.

Lemma reg_get_mask_zip (f : Z -> Z -> Z) (a b : NVIC_Mask_t) (i : Z) :
  length (reg a) = 8%nat -> length (reg b) = 8%nat -> 0 <= i < 8 ->
  reg_get (mask_zip f a b) i = f (reg_get a i) (reg_get b i).
Proof.
  intros Ha Hb Hi. unfold reg_get, mask_zip. simpl.
  apply lookup_total_zip_with; lia.
Qed.

(** Membership of a line, read word by word. *)
Lemma mask_bit_index (m : NVIC_Mask_t) (line : Z) : 0 <= line < 256 ->
  mask_bit m line = Z.testbit (reg_get m (word_index line)) (bit_index line).
Proof.
  intros H. unfold mask_bit. by rewrite word_index_valid, bit_index_valid.
Qed.

Lemma line_of_indices (a b : Z) : 0 <= a < 256 -> 0 <= b < 256 ->
  a / 32 = b / 32 -> a mod 32 = b mod 32 -> a = b.
Proof.
  intros Ha Hb Hq Hr.
  rewrite (Z.div_mod a 32), (Z.div_mod b 32) by lia. congruence.
Qed.

(** ** Mask bit operations *)

Lemma Set_valid (irqNum : Z) (m : NVIC_Mask_t) : IS_INTERRUPT_NUM irqNum = true ->
  NVIC_SetSpecificInterruptInAMask irqNum m =
  reg_set m (word_index irqNum)
    (Z.lor (reg_get m (word_index irqNum)) (Z.shiftl 1 (bit_index irqNum))).
Proof. intros H. unfold NVIC_SetSpecificInterruptInAMask. by rewrite H. Qed.

Lemma Clear_valid (irqNum : Z) (m : NVIC_Mask_t) : IS_INTERRUPT_NUM irqNum = true ->
  NVIC_ClearSpecificInterruptInAMask irqNum m =
  reg_set m (word_index irqNum)
    (Z.land (reg_get m (word_index irqNum)) (not32 (Z.shiftl 1 (bit_index irqNum)))).
Proof. intros H. unfold NVIC_ClearSpecificInterruptInAMask. by rewrite H. Qed.

Lemma Set_Clear_invalid (irqNum : Z) (m : NVIC_Mask_t) : IS_INTERRUPT_NUM irqNum = false ->
  NVIC_SetSpecificInterruptInAMask irqNum m = m
  /\ NVIC_ClearSpecificInterruptInAMask irqNum m = m.
Proof.
  intros H. unfold NVIC_SetSpecificInterruptInAMask, NVIC_ClearSpecificInterruptInAMask.
  by rewrite H.
Qed.

Lemma Clear_Set_eq_Clear (irqNum : Z) (m : NVIC_Mask_t) :
  length (reg m) = 8%nat -> IS_INTERRUPT_NUM irqNum = true ->
  NVIC_ClearSpecificInterruptInAMask irqNum (NVIC_SetSpecificInterruptInAMask irqNum m)
  = NVIC_ClearSpecificInterruptInAMask irqNum m.
Proof.
  intros Hlen Hv. pose proof (word_index_range irqNum) as Hi.
  rewrite (Set_valid _ _ Hv), !Clear_valid by done.
  rewrite reg_get_set_eq, reg_set_set, lor_land_not32 by done. reflexivity.
Qed.

(** The bits of a mask after a line is cleared. *)
Lemma mask_bit_Clear (irqNum : Z) (m : NVIC_Mask_t) (line : Z) :
  wf_mask m = true -> 0 <= irqNum < 0xF0 -> 0 <= line < 256 ->
  mask_bit (NVIC_ClearSpecificInterruptInAMask irqNum m) line
  = mask_bit m line && negb (line =? irqNum).
Proof.
  intros Hwf Hirq Hline. pose proof (wf_mask_length m Hwf) as Hlen.
  pose proof (word_index_range irqNum) as Hi.
  pose proof (bit_index_range irqNum) as Hk.
  rewrite Clear_valid by (apply IS_INTERRUPT_NUM_valid; lia).
  unfold mask_bit.
  assert (0 <= line / 32 < 8) as Hw
    by (split; [apply Z.div_pos; lia | apply Z.div_lt_upper_bound; lia]).
  assert (0 <= line mod 32 < 32) as Hb by (apply Z.mod_pos_bound; lia).
  destruct (Z.eq_dec (word_index irqNum) (line / 32)) as [Heq|Hne].
  - rewrite <- Heq, reg_get_set_eq by done.
    rewrite Z.land_spec, testbit_not32, testbit_bit by lia.
    f_equal. replace (line mod 32 <? 32) with true by (symmetry; apply Z.ltb_lt; lia).
    rewrite andb_true_r. f_equal.
    rewrite word_index_valid in Heq by lia.
    rewrite bit_index_valid by lia.
    destruct (Z.eqb_spec (line mod 32) (irqNum mod 32)) as [Hr|Hr],
             (Z.eqb_spec line irqNum) as [He|He]; try reflexivity.
    + exfalso. apply He. apply line_of_indices; (lia || done).
    + exfalso. subst. done.
  - rewrite reg_get_set_ne by lia.
    destruct (Z.eqb_spec line irqNum) as [->|_]; [|by rewrite andb_true_r].
    exfalso. apply Hne. apply word_index_valid. lia.
Qed.

Lemma Clear_id_iff (irqNum : Z) (m : NVIC_Mask_t) :
  wf_mask m = true -> 0 <= irqNum < 0xF0 ->
  NVIC_ClearSpecificInterruptInAMask irqNum m = m <-> mask_bit m irqNum = false.
Proof.
  intros Hwf Hirq. pose proof (wf_mask_length m Hwf) as Hlen.
  pose proof (word_index_range irqNum) as Hi.
  pose proof (bit_index_range irqNum) as Hk.
  split.
  - intros Heq. rewrite <- Heq, mask_bit_Clear by (done || lia).
    rewrite Z.eqb_refl. apply andb_false_r.
  - intros Hbit. rewrite mask_bit_index in Hbit by lia.
    rewrite Clear_valid by (apply IS_INTERRUPT_NUM_valid; lia).
    rewrite land_not32_id; [by apply reg_set_get | by apply wf_mask_word |].
    apply Z.eqb_eq. rewrite land_bit_eqb by lia. by rewrite Hbit.
Qed.

Lemma reg_get_zero_mask (i : Z) : 0 <= i < 8 -> reg_get zero_mask i = 0.
Proof.
  intros Hi. unfold reg_get, zero_mask. cbn [reg].
  apply lookup_total_replicate_2. lia.
Qed.

Lemma mask_zero_iff (m : NVIC_Mask_t) : length (reg m) = 8%nat ->
  m = zero_mask <-> forall i, 0 <= i < 8 -> reg_get m i = 0.
Proof.
  intros Hlen. split.
  - intros -> i Hi. by apply reg_get_zero_mask.
  - intros Hall. apply mask_ext; [done|done|].
    intros i Hi. rewrite reg_get_zero_mask by done. by apply Hall.
Qed.

(** ** Running the monad *)

Ltac unfold_primask :=
  cbv beta iota delta
    [PRIMASK_EnterNoInterruptsSection PRIMASK_ExitNoInterruptsSection
     PRIMASK_EnterCriticalSection PRIMASK_ExitCriticalSection
     PRIMASK_DisableIrq PRIMASK_EnableIrq NO_INTERRUPTS_SECTION
     __get_PRIMASK __disable_irq __enable_irq __ISB __get_BASEPRI __set_BASEPRI
     NVIC_ISER_read NVIC_ICER_read NVIC_ISER_write NVIC_ICER_write
     SCB_ICSR_read NVIC_GetPriority get_basePriLevel put_basePriLevel
     mbind mret M_bind M_ret exec eval].

Lemma primask_bit (b : bool) : negb (Z.land (Z.b2z b) 1 =? 0) = b.
Proof. by destruct b. Qed.

(** What [NO_INTERRUPTS_SECTION] does around a section: it logs the entry,
    runs the section with PRIMASK set, and puts PRIMASK back. *)
Lemma NO_INTERRUPTS_SECTION_run {A : Type} (body : M A) (s : Machine) :
  NO_INTERRUPTS_SECTION body s =
  let '(r, s1) := body (log EvCPSID (set_PRIMASK true s)) in
  (r, if PRIMASK s then s1 else log EvCPSIE (set_PRIMASK false s1)).
Proof.
  unfold_primask. simpl.
  destruct (body _) as [r s1]. by destruct (PRIMASK s).
Qed.

Lemma Disable_enable (d : NVIC_Mask_t) (s : Machine) :
  NVIC_enable (exec (NVIC_DisableSpecificInterrupts d) s)
  = mask_zip Z.ldiff (NVIC_enable s) d.
Proof.
  unfold exec, NVIC_DisableSpecificInterrupts. rewrite NO_INTERRUPTS_SECTION_run.
  unfold_primask. simpl. by destruct (PRIMASK s).
Qed.

Lemma Enable_enable (e : NVIC_Mask_t) (s : Machine) :
  NVIC_enable (exec (NVIC_EnableSpecificInterrupts e) s)
  = mask_zip Z.lor (NVIC_enable s) e.
Proof.
  unfold exec, NVIC_EnableSpecificInterrupts. rewrite NO_INTERRUPTS_SECTION_run.
  unfold_primask. simpl. by destruct (PRIMASK s).
Qed.

Lemma Enter_specific_run (d : NVIC_Mask_t) (s : Machine) :
  eval (NVIC_EnterSpecificInterruptDisabledSection d) s = NVIC_enable s
  /\ NVIC_enable (exec (NVIC_EnterSpecificInterruptDisabledSection d) s)
     = mask_zip Z.ldiff (NVIC_enable s) d
  /\ PRIMASK (exec (NVIC_EnterSpecificInterruptDisabledSection d) s) = PRIMASK s.
Proof.
  unfold exec, eval, NVIC_EnterSpecificInterruptDisabledSection.
  rewrite NO_INTERRUPTS_SECTION_run. unfold_primask. simpl.
  by destruct (PRIMASK s).
Qed.

Lemma mask_bit_zip (f : Z -> Z -> Z) (g : bool -> bool -> bool) (a b : NVIC_Mask_t)
    (line : Z) :
  (forall x y n, Z.testbit (f x y) n = g (Z.testbit x n) (Z.testbit y n)) ->
  length (reg a) = 8%nat -> length (reg b) = 8%nat -> 0 <= line < 256 ->
  mask_bit (mask_zip f a b) line = g (mask_bit a line) (mask_bit b line).
Proof.
  intros Hf Ha Hb Hline. unfold mask_bit.
  rewrite reg_get_mask_zip; [apply Hf|done|done|].
  split; [apply Z.div_pos; lia | apply Z.div_lt_upper_bound; lia].
Qed.

(** Enabling again what was just disabled out of [e] gives [e] back. *)
Lemma lor_ldiff_restore (e d : NVIC_Mask_t) :
  length (reg e) = 8%nat -> length (reg d) = 8%nat ->
  mask_zip Z.lor (mask_zip Z.ldiff e d) e = e.
Proof.
  intros He Hd. apply mask_ext; [by repeat apply mask_zip_length | done |].
  intros i Hi. rewrite !reg_get_mask_zip by (done || by apply mask_zip_length).
  apply Z.bits_inj'. intros n _. rewrite Z.lor_spec, Z.ldiff_spec.
  by destruct (Z.testbit (reg_get e i) n), (Z.testbit (reg_get d i) n).
Qed.

(** [NVIC_ExitSpecificInterruptDisabledSection] goes through
    [NVIC_DisableSpecificInterrupts]: given the snapshot that Enter took, it
    clears every line of the snapshot, so no line is left enabled. *)
Lemma Enter_Exit_specific_leaves_none (d : NVIC_Mask_t) (s : Machine) :
  wf_mask (NVIC_enable s) = true ->
  wf_mask d = true ->
  let saved := eval (NVIC_EnterSpecificInterruptDisabledSection d) s in
  let s1 := exec (NVIC_EnterSpecificInterruptDisabledSection d) s in
  NVIC_enable (exec (NVIC_ExitSpecificInterruptDisabledSection saved) s1) = zero_mask.
Proof.
  intros He Hd saved s1.
  pose proof (wf_mask_length _ He) as Hle. pose proof (wf_mask_length _ Hd) as Hld.
  destruct (Enter_specific_run d s) as (Hsaved & Hen & _).
  fold saved in Hsaved. fold s1 in Hen.
  unfold NVIC_ExitSpecificInterruptDisabledSection.
  rewrite Disable_enable, Hen, Hsaved.
  apply mask_zero_iff; [by repeat apply mask_zip_length|].
  intros i Hi. rewrite !reg_get_mask_zip by (done || by apply mask_zip_length).
  apply Z.bits_inj'. intros n _. rewrite !Z.ldiff_spec, Z.bits_0.
  by destruct (Z.testbit (reg_get (NVIC_enable s) i) n), (Z.testbit (reg_get d i) n).
Qed.

(** What a restoring Exit would do: Enter snapshots the enable register and
    clears the lines of [d], and [NVIC_EnableSpecificInterrupts], the sibling
    of the function Exit calls, given the snapshot puts the register back. *)
Lemma Enter_specific_then_Enable_restores (d : NVIC_Mask_t) (s : Machine) :
  wf_mask (NVIC_enable s) = true ->
  wf_mask d = true ->
  let saved := eval (NVIC_EnterSpecificInterruptDisabledSection d) s in
  let s1 := exec (NVIC_EnterSpecificInterruptDisabledSection d) s in
  saved = NVIC_enable s
  /\ (forall line, 0 <= line < 256 ->
        mask_bit (NVIC_enable s1) line
        = mask_bit (NVIC_enable s) line && negb (mask_bit d line))
  /\ NVIC_enable (exec (NVIC_EnableSpecificInterrupts saved) s1) = NVIC_enable s.
Proof.
  intros He Hd saved s1.
  pose proof (wf_mask_length _ He) as Hle. pose proof (wf_mask_length _ Hd) as Hld.
  destruct (Enter_specific_run d s) as (Hsaved & Hen & _).
  fold saved in Hsaved. fold s1 in Hen.
  split; [done|]. split.
  - intros line Hline. rewrite Hen.
    by apply (mask_bit_zip Z.ldiff (fun x y => x && negb y)); [apply Z.ldiff_spec|..].
  - rewrite Enable_enable, Hen, Hsaved. by apply lor_ldiff_restore.
Qed.

(** ** The two loops over the mask words *)

Lemma loop_indices_elem (i0 i : Z) : i ∈ loop_indices i0 <-> i0 <= i < 8.
Proof. unfold loop_indices, MAX_NVIC_REG_WORDS. rewrite elem_of_seqZ. lia. Qed.

Lemma loop_indices_NoDup (i0 : Z) : NoDup (loop_indices i0).
Proof. apply NoDup_seqZ. Qed.

Lemma iser_scan_true (mask nvicMask : NVIC_Mask_t) (indices : list Z) :
  iser_scan mask nvicMask indices = true
  <-> forall i, i ∈ indices -> Z.land (reg_get mask i) (reg_get nvicMask i) = 0.
Proof.
  induction indices as [|i rest IH]; simpl.
  - split; [|done]. intros _ i Hi. by apply elem_of_nil in Hi.
  - destruct (Z.eqb_spec (Z.land (reg_get mask i) (reg_get nvicMask i)) 0) as [H0|Hn0];
      simpl.
    + rewrite IH. split.
      * intros Hrest j Hj. apply elem_of_cons in Hj as [->|Hj]; auto.
      * intros Hall j Hj. apply Hall. by apply elem_of_cons; right.
    + split; [done|]. intros Hall. exfalso. apply Hn0, Hall. by apply elem_of_cons; left.
Qed.

(** What [NVIC_IsNvicIserMaskDisabled] returns when its counter starts at
    [i_init]: it looks at the words from [i_init] on and at no other. *)
Lemma IsNvicIserMaskDisabled_run (i_init : Z) (mask : NVIC_Mask_t) (s : Machine) :
  eval (NVIC_IsNvicIserMaskDisabled i_init mask) s = true
  <-> forall i, i_init <= i < 8 ->
        Z.land (reg_get mask i) (reg_get (NVIC_enable s) i) = 0.
Proof.
  unfold eval, NVIC_IsNvicIserMaskDisabled.
  cbv beta iota delta [mbind M_bind]. rewrite NO_INTERRUPTS_SECTION_run.
  unfold_primask. simpl. rewrite iser_scan_true.
  split; intros H i Hi; apply H; by apply loop_indices_elem.
Qed.

Lemma pulse_word_ldiff (x t : Z) : is_uint32 t = true -> pulse_word x t = Z.ldiff t x.
Proof.
  intros Ht. unfold pulse_word. apply Z.bits_inj'. intros n Hn.
  rewrite Z.land_spec, testbit_not32, Z.land_spec, Z.ldiff_spec by lia.
  destruct (Z.ltb_spec n 32).
  - by destruct (Z.testbit x n), (Z.testbit t n).
  - rewrite (is_uint32_high t n) by (done || lia). by rewrite andb_false_r.
Qed.

Lemma trigger_step_run (enable nvicMask : NVIC_Mask_t) (shouldTrigger : bool) (i : Z) :
  length (reg nvicMask) = 8%nat -> 0 <= i < 8 ->
  trigger_step enable (nvicMask, shouldTrigger) i
  = (reg_set nvicMask i (pulse_word (reg_get nvicMask i) (reg_get enable i)),
     negb (pulse_word (reg_get nvicMask i) (reg_get enable i) =? 0) || shouldTrigger).
Proof.
  intros Hlen Hi. unfold trigger_step.
  rewrite reg_set_set, !reg_get_set_eq by (done || by rewrite reg_set_length).
  fold (pulse_word (reg_get nvicMask i) (reg_get enable i)).
  by destruct (pulse_word _ _ =? 0).
Qed.

Lemma trigger_fold (enable : NVIC_Mask_t) (indices : list Z) :
  NoDup indices -> (forall i, i ∈ indices -> 0 <= i < 8) ->
  forall (nvicMask : NVIC_Mask_t) (shouldTrigger : bool),
  length (reg nvicMask) = 8%nat ->
  let r := foldl (trigger_step enable) (nvicMask, shouldTrigger) indices in
  length (reg (fst r)) = 8%nat
  /\ (forall i, i ∈ indices ->
        reg_get (fst r) i = pulse_word (reg_get nvicMask i) (reg_get enable i))
  /\ (forall i, 0 <= i -> i ∉ indices -> reg_get (fst r) i = reg_get nvicMask i)
  /\ (snd r = true <->
        shouldTrigger = true
        \/ exists i, i ∈ indices
             /\ pulse_word (reg_get nvicMask i) (reg_get enable i) <> 0).
Proof.
  induction indices as [|x rest IH]; intros Hnd Hrange nvicMask shouldTrigger Hlen.
  - simpl. split; [done|]. split; [intros i Hi; by apply elem_of_nil in Hi|].
    split; [done|]. split; [by left|].
    intros [H|(i & Hi & _)]; [done | by apply elem_of_nil in Hi].
  - apply NoDup_cons in Hnd as [Hx Hnd].
    assert (0 <= x < 8) as Hx8 by (apply Hrange; by apply elem_of_cons; left).
    assert (forall i, i ∈ rest -> 0 <= i < 8) as Hrange'
      by (intros i Hi; apply Hrange; by apply elem_of_cons; right).
    cbn [foldl]. rewrite trigger_step_run by done.
    set (w := pulse_word (reg_get nvicMask x) (reg_get enable x)).
    destruct (IH Hnd Hrange' (reg_set nvicMask x w) (negb (w =? 0) || shouldTrigger))
      as (Hl & Hin & Hout & Hst); [by rewrite reg_set_length|].
    split; [done|]. split; [|split].
    + intros i Hi. apply elem_of_cons in Hi as [->|Hi].
      * rewrite Hout by (lia || done). by apply reg_get_set_eq.
      * rewrite Hin by done. rewrite reg_get_set_ne; [done|lia| |].
        -- specialize (Hrange' i Hi). lia.
        -- intros ->. done.
    + intros i Hi0 Hi. apply not_elem_of_cons in Hi as [Hne Hi].
      rewrite Hout by done. apply reg_get_set_ne; lia.
    + rewrite Hst. split.
      * intros [Ht|(i & Hi & Hw)].
        -- apply orb_true_iff in Ht as [Ht|Ht]; [|by left].
           right. exists x. split; [by apply elem_of_cons; left|].
           fold w. intros H0. rewrite H0 in Ht. done.
        -- right. exists i. split; [by apply elem_of_cons; right|].
           rewrite reg_get_set_ne in Hw; [done|lia| |].
           ++ specialize (Hrange' i Hi). lia.
           ++ intros ->. done.
      * intros [Ht|(i & Hi & Hw)].
        -- left. rewrite Ht. apply orb_true_r.
        -- apply elem_of_cons in Hi as [->|Hi].
           ++ left. fold w in Hw. apply Z.eqb_neq in Hw. by rewrite Hw.
           ++ right. exists i. split; [done|].
              rewrite reg_get_set_ne; [done|lia| |].
              ** specialize (Hrange' i Hi). lia.
              ** intros ->. done.
Qed.

(** ** Querying a mask against the enable register *)

(** With the counter started at zero, as the loop is meant to run,
    [NVIC_IsNvicIserMaskDisabled] is true exactly when no bit of the mask is
    enabled; it is true after [NVIC_DisableSpecificInterrupts(mask)] and false
    after [NVIC_EnableSpecificInterrupts(mask)] for a non-empty mask. *)
Lemma IsNvicIserMaskDisabled_zero_init (mask : NVIC_Mask_t) (s : Machine) :
  wf_mask mask = true -> wf_mask (NVIC_enable s) = true ->
  (eval (NVIC_IsNvicIserMaskDisabled 0 mask) s = true
   <-> forall i, 0 <= i < 8 -> Z.land (reg_get mask i) (reg_get (NVIC_enable s) i) = 0)
  /\ eval (NVIC_IsNvicIserMaskDisabled 0 mask)
          (exec (NVIC_DisableSpecificInterrupts mask) s) = true
  /\ (mask <> zero_mask ->
      eval (NVIC_IsNvicIserMaskDisabled 0 mask)
           (exec (NVIC_EnableSpecificInterrupts mask) s) = false).
Proof.
  intros Hm He.
  pose proof (wf_mask_length _ Hm) as Hlm. pose proof (wf_mask_length _ He) as Hle.
  split; [apply IsNvicIserMaskDisabled_run|]. split.
  - apply IsNvicIserMaskDisabled_run. intros i Hi.
    rewrite Disable_enable, reg_get_mask_zip by done.
    apply Z.bits_inj'. intros n _. rewrite Z.land_spec, Z.ldiff_spec, Z.bits_0.
    by destruct (Z.testbit (reg_get mask i) n), (Z.testbit (reg_get (NVIC_enable s) i) n).
  - intros Hne.
    destruct (eval _ _) eqn:E; [exfalso|done].
    pose proof (proj1 (IsNvicIserMaskDisabled_run _ _ _) E) as E'. clear E.
    rename E' into E. apply Hne, mask_zero_iff; [done|].
    intros i Hi. specialize (E i Hi).
    rewrite Enable_enable, reg_get_mask_zip in E by done.
    rewrite <- E. apply Z.bits_inj'. intros n _. rewrite Z.land_spec, Z.lor_spec.
    by destruct (Z.testbit (reg_get mask i) n), (Z.testbit (reg_get (NVIC_enable s) i) n).
Qed.

(** ** Pulsing the disabled lines of a target mask *)

Lemma Trigger_run (i_init : Z) (enable : NVIC_Mask_t) (s : Machine) :
  let r := foldl (trigger_step enable) (NVIC_enable s, false) (loop_indices i_init) in
  let s' := exec (NVIC_TriggerSpecificPendingInterrupts i_init enable) s in
  PRIMASK s' = PRIMASK s
  /\ (snd r = false ->
        NVIC_enable s' = NVIC_enable s
        /\ trace s' = trace s ++ section_events (PRIMASK s))
  /\ (snd r = true ->
        NVIC_enable s'
        = mask_zip Z.ldiff (mask_zip Z.lor (NVIC_enable s) (fst r)) (fst r)
        /\ trace s' = trace s ++ section_events (PRIMASK s)
                        ++ [EvISER (fst r); EvISB; EvICER (fst r)]).
Proof.
  intros r s'. subst s'.
  unfold exec, NVIC_TriggerSpecificPendingInterrupts.
  cbv beta iota delta [mbind M_bind]. rewrite NO_INTERRUPTS_SECTION_run.
  cbv beta iota delta [NVIC_ISER_read]. subst r.
  destruct (foldl _ _ _) as [nvicMask shouldTrigger]. cbn [fst snd].
  unfold section_events.
  destruct shouldTrigger, (PRIMASK s) eqn:Hp; unfold_primask; simpl;
    rewrite ?Hp, <- ?app_assoc; simpl; (split; [done|]); split; intros; done.
Qed.

Lemma pulse_then_clear (e p : Z) : Z.land e p = 0 -> Z.ldiff (Z.lor e p) p = e.
Proof.
  intros H0. apply Z.bits_inj'. intros n _. rewrite Z.ldiff_spec, Z.lor_spec.
  assert (Z.testbit (Z.land e p) n = false) as Hf by (rewrite H0; apply Z.bits_0).
  rewrite Z.land_spec in Hf.
  by destruct (Z.testbit e n), (Z.testbit p n).
Qed.

(** With the counter started at zero, as the loop is meant to run,
    [NVIC_TriggerSpecificPendingInterrupts] enables exactly the lines of the
    target that are disabled, issues the barrier and disables them again; the
    enable register ends as it was, and a target with no disabled line causes
    no write at all. *)
Lemma Trigger_zero_init (target : NVIC_Mask_t) (s : Machine) :
  wf_mask target = true -> wf_mask (NVIC_enable s) = true ->
  let pulse := mask_zip Z.ldiff target (NVIC_enable s) in
  let s' := exec (NVIC_TriggerSpecificPendingInterrupts 0 target) s in
  NVIC_enable s' = NVIC_enable s
  /\ PRIMASK s' = PRIMASK s
  /\ (pulse = zero_mask -> trace s' = trace s ++ section_events (PRIMASK s))
  /\ (pulse <> zero_mask ->
      trace s' = trace s ++ section_events (PRIMASK s)
                   ++ [EvISER pulse; EvISB; EvICER pulse]).
Proof.
  intros Ht He pulse s'.
  pose proof (wf_mask_length _ Ht) as Hlt. pose proof (wf_mask_length _ He) as Hle.
  destruct (Trigger_run 0 target s) as (Hp & Hno & Hyes). fold s' in Hp, Hno, Hyes.
  destruct (trigger_fold target (loop_indices 0) (loop_indices_NoDup 0)
              (fun i Hi => proj1 (loop_indices_elem 0 i) Hi) (NVIC_enable s) false Hle)
    as (Hl & Hin & _ & Hst).
  set (r := foldl (trigger_step target) (NVIC_enable s, false) (loop_indices 0)) in *.
  assert (fst r = pulse) as Hr.
  { apply mask_ext; [done | by apply mask_zip_length |].
    intros i Hi. rewrite Hin by (by apply loop_indices_elem).
    unfold pulse. rewrite reg_get_mask_zip by done.
    apply pulse_word_ldiff. by apply wf_mask_word. }
  assert (snd r = true <-> pulse <> zero_mask) as Hsnd.
  { rewrite Hst. split.
    - intros [Hf|(i & Hi & Hw)]; [done|]. apply loop_indices_elem in Hi.
      intros Hz. apply Hw. rewrite <- Hin by (by apply loop_indices_elem).
      rewrite Hr, Hz. by apply reg_get_zero_mask.
    - intros Hnz. right.
      destruct (decide (Forall (fun i => reg_get pulse i = 0) (loop_indices 0)))
        as [Hall|Hex].
      + exfalso. apply Hnz, mask_zero_iff; [by apply mask_zip_length|].
        intros i Hi. rewrite Forall_forall in Hall. by apply Hall, loop_indices_elem.
      + apply not_Forall_Exists in Hex; [|intros i; apply _].
        apply Exists_exists in Hex as (i & Hi & Hw). exists i. split; [done|].
        rewrite <- Hin, Hr by done. done. }
  destruct (snd r) eqn:Hs.
  - destruct (Hyes eq_refl) as (Hen & Htr). rewrite Hr in Hen, Htr.
    assert (pulse <> zero_mask) as Hnz by (by apply Hsnd).
    split; [|split; [done|split; [done|by intros _]]].
    rewrite Hen. apply mask_ext; [by repeat apply mask_zip_length | done |].
    intros i Hi.
    rewrite !reg_get_mask_zip by (done || by repeat apply mask_zip_length).
    apply pulse_then_clear. unfold pulse. rewrite reg_get_mask_zip by done.
    apply Z.bits_inj'. intros n _. rewrite Z.land_spec, Z.ldiff_spec, Z.bits_0.
    by destruct (Z.testbit (reg_get target i) n),
                (Z.testbit (reg_get (NVIC_enable s) i) n).
  - destruct (Hno eq_refl) as (Hen & Htr).
    split; [done|split; [done|split; [by intros _|]]].
    intros Hnz. apply Hsnd in Hnz. done.
Qed.

(** C3 (amended). For every mask [m] and every valid interrupt line [L],
    [NVIC_ClearSpecificInterruptInAMask(L, -)] applied after
    [NVIC_SetSpecificInterruptInAMask(L, -)] yields [m] with the bit of [L]
    cleared and every other bit as it was, which is [m] itself exactly when
    the bit of [L] was clear in [m]; for every line identifier outside
    [0, 0xF0) both operations leave the mask unchanged. *)
Theorem C3_clear_after_set (irqNum : Z) (m : NVIC_Mask_t) :
  wf_mask m = true ->
  (0 <= irqNum < 0xF0 ->
     let m' := NVIC_ClearSpecificInterruptInAMask irqNum
                 (NVIC_SetSpecificInterruptInAMask irqNum m) in
     (forall line, 0 <= line < 256 ->
        mask_bit m' line = mask_bit m line && negb (line =? irqNum))
     /\ (m' = m <-> mask_bit m irqNum = false))
  /\ (- 2 ^ 15 <= irqNum < 0 \/ 0xF0 <= irqNum < 2 ^ 15 ->
      NVIC_SetSpecificInterruptInAMask irqNum m = m
      /\ NVIC_ClearSpecificInterruptInAMask irqNum m = m).
Proof.
  intros Hwf. pose proof (wf_mask_length m Hwf) as Hlen. split.
  - intros Hirq m'. subst m'.
    rewrite Clear_Set_eq_Clear by (done || apply IS_INTERRUPT_NUM_valid; lia).
    split; [intros line Hline; by apply mask_bit_Clear | by apply Clear_id_iff].
  - intros Hirq. by apply Set_Clear_invalid, IS_INTERRUPT_NUM_invalid.
Qed.

(** ** Lines that are not peripheral interrupts *)

Lemma IS_EXCEPTION_NUM_valid (irqNum : Z) : -16 <= irqNum < 0 -> IS_IRQn irqNum = true.
Proof.
  intros H. unfold IS_IRQn, IS_EXCEPTION_NUM. rewrite to_int16_small by lia.
  apply orb_true_iff. right. apply andb_true_iff.
  split; [apply Z.leb_le|apply Z.ltb_lt]; lia.
Qed.

(** C10. For every negative line identifier, the core-exception numbers
    among them, [NVIC_SetSpecificInterruptInAMask] and
    [NVIC_ClearSpecificInterruptInAMask] leave the mask unchanged and
    [NVIC_IsIRQnDisabled] answers true, as they do for an identifier at or
    above [0xF0]; the core-exception numbers are lines for [IS_IRQn]. *)
Theorem C10_exception_numbers_rejected (irqNum : Z) (mask : NVIC_Mask_t) (s : Machine) :
  - 2 ^ 15 <= irqNum < 0 \/ 0xF0 <= irqNum < 2 ^ 15 ->
  NVIC_SetSpecificInterruptInAMask irqNum mask = mask
  /\ NVIC_ClearSpecificInterruptInAMask irqNum mask = mask
  /\ NVIC_IsIRQnDisabled irqNum s = (true, s)
  /\ (-16 <= irqNum < 0 -> IS_IRQn irqNum = true).
Proof.
  intros H. pose proof (IS_INTERRUPT_NUM_invalid irqNum H) as Hinv.
  destruct (Set_Clear_invalid irqNum mask Hinv) as [HS HC].
  split; [done|]. split; [done|]. split; [|apply IS_EXCEPTION_NUM_valid].
  unfold NVIC_IsIRQnDisabled. by rewrite Hinv.
Qed.

(** ** Blocked lines *)

Lemma IsIRQnDisabled_valid (irqNum : Z) (s : Machine) : 0 <= irqNum < 0xF0 ->
  NVIC_IsIRQnDisabled irqNum s = (negb (mask_bit (NVIC_enable s) irqNum), s).
Proof.
  intros H. unfold NVIC_IsIRQnDisabled.
  rewrite IS_INTERRUPT_NUM_valid by done. unfold_primask.
  fold (word_index irqNum). fold (bit_index irqNum).
  rewrite land_bit_eqb by apply bit_index_range.
  by rewrite mask_bit_index by lia.
Qed.

Lemma assert_upper (irqNum : Z) : IsIRQnBlocked_assert irqNum = true -> irqNum < 0xF0.
Proof.
  unfold IsIRQnBlocked_assert. intros H.
  destruct has_BASEPRI; apply andb_true_iff in H as [_ H]; by apply Z.ltb_lt in H.
Qed.

(** The answer of [IRQ_IsIRQnBlocked] for any line that passes its
    [ASSERT], with the second step left to [NVIC_IsIRQnDisabled]. *)
Lemma IsIRQnBlocked_run (irqNum : Z) (s : Machine) :
  IsIRQnBlocked_assert irqNum = true ->
  IRQ_IsIRQnBlocked irqNum s =
  (Some (PRIMASK s
         || eval (NVIC_IsIRQnDisabled irqNum) s
         || (has_BASEPRI && negb (BASEPRI s =? 0)
             && (Z.shiftr (BASEPRI s) BASEPRI_START_BIT <=? IPR s irqNum))
         || (negb (Z.shiftr (Z.land (ICSR s) SCB_ICSR_VECTACTIVE_Msk)
                     SCB_ICSR_VECTACTIVE_Pos =? 0)
             && (IPR s (to_int32 (to_uint32
                         (Z.shiftr (Z.land (ICSR s) SCB_ICSR_VECTACTIVE_Msk)
                            SCB_ICSR_VECTACTIVE_Pos - 16)))
                 <=? IPR s irqNum))), s).
Proof.
  intros Hassert. unfold IRQ_IsIRQnBlocked. rewrite Hassert. cbn [negb].
  cbv beta iota delta [mbind M_bind __get_PRIMASK]. rewrite primask_bit.
  destruct (PRIMASK s); [reflexivity|]. cbn [orb].
  assert (NVIC_IsIRQnDisabled irqNum s = (eval (NVIC_IsIRQnDisabled irqNum) s, s)) as ->.
  { unfold eval, NVIC_IsIRQnDisabled. by destruct (IS_INTERRUPT_NUM irqNum). }
  destruct (eval (NVIC_IsIRQnDisabled irqNum) s); [reflexivity|]. cbn [orb].
  unfold_primask.
  destruct has_BASEPRI; cbn [andb].
  - destruct (negb (BASEPRI s =? 0)
              && (Z.shiftr (BASEPRI s) BASEPRI_START_BIT <=? IPR s irqNum));
      [reflexivity|]. cbn [orb].
    destruct (Z.shiftr _ _ =? 0); [reflexivity|]. cbn [negb andb].
    by destruct (IPR s _ <=? IPR s irqNum).
  - cbn [orb]. destruct (Z.shiftr _ _ =? 0); [reflexivity|]. cbn [negb andb].
    by destruct (IPR s _ <=? IPR s irqNum).
Qed.

(** C5. For a valid interrupt line, [IRQ_IsIRQnBlocked] returns, and its
    answer is decided in this order: true if PRIMASK is set; otherwise true
    if the enable bit of the line is clear; otherwise true if BASEPRI (where
    the core has it) is non-zero and the priority of the line is at least the
    priority field of BASEPRI; otherwise true if a handler is active and its
    priority is at most the priority of the line; otherwise false.  No
    register is written. *)
Theorem C5_IsIRQnBlocked_order (irqNum : Z) (s : Machine) :
  0 <= irqNum ->
  IsIRQnBlocked_assert irqNum = true ->
  let irqPri := IPR s irqNum in
  let activeIrq :=
    Z.shiftr (Z.land (ICSR s) SCB_ICSR_VECTACTIVE_Msk) SCB_ICSR_VECTACTIVE_Pos in
  IRQ_IsIRQnBlocked irqNum s =
  (Some (if PRIMASK s then true
         else if negb (mask_bit (NVIC_enable s) irqNum) then true
         else if has_BASEPRI && negb (BASEPRI s =? 0)
                 && (Z.shiftr (BASEPRI s) BASEPRI_START_BIT <=? irqPri) then true
         else if negb (activeIrq =? 0)
                 && (IPR s (to_int32 (to_uint32 (activeIrq - 16))) <=? irqPri) then true
         else false), s).
Proof.
  intros H0 Hassert irqPri activeIrq. pose proof (assert_upper _ Hassert) as Hup.
  rewrite IsIRQnBlocked_run by done. unfold eval.
  rewrite IsIRQnDisabled_valid by lia. cbn [fst]. fold irqPri. fold activeIrq.
  destruct (PRIMASK s); [reflexivity|]. cbn [orb].
  destruct (negb (mask_bit (NVIC_enable s) irqNum)); [reflexivity|]. cbn [orb].
  destruct (has_BASEPRI && negb (BASEPRI s =? 0)
            && (Z.shiftr (BASEPRI s) BASEPRI_START_BIT <=? irqPri)); [reflexivity|].
  cbn [orb]. by destruct (negb (activeIrq =? 0) && _).
Qed.

(** ** The threshold *)

Lemma to_uint32_small (x : Z) : 0 <= x < 2 ^ 32 -> to_uint32 x = x.
Proof. intros H. unfold to_uint32. apply Z.mod_small; lia. Qed.

Lemma to_int8_small (x : Z) : - 2 ^ 7 <= x < 2 ^ 7 -> to_int8 x = x.
Proof. intros H. unfold to_int8. rewrite Z.mod_small; lia. Qed.

Lemma INTERRUPT_LOWEST_PRIORITY_le : INTERRUPT_LOWEST_PRIORITY <= 7.
Proof. unfold INTERRUPT_LOWEST_PRIORITY. destruct has_BASEPRI; lia. Qed.

Lemma IS_INT_LVL_VALID_iff (level : Z) : 0 <= level < 2 ^ 32 ->
  IS_INT_LVL_VALID level = true <-> 0 < level <= INTERRUPT_LOWEST_PRIORITY.
Proof.
  intros H. unfold IS_INT_LVL_VALID, INTERRUPT_HIGHEST_PRIORITY.
  rewrite to_uint32_small by done. rewrite andb_true_iff, Z.ltb_lt, Z.leb_le. tauto.
Qed.

(** A valid level shifted into the priority field is not zero. *)
Lemma threshold_value_pos (level : Z) :
  1 <= __NVIC_PRIO_BITS <= 8 -> 0 < level <= 7 -> 0 < threshold_value level.
Proof.
  intros Hbits Hlevel. unfold threshold_value, BASEPRI_START_BIT.
  rewrite (to_uint32_small (8 - __NVIC_PRIO_BITS)) by lia.
  rewrite Z.shiftl_mul_pow2 by lia.
  assert (0 < 2 ^ (8 - __NVIC_PRIO_BITS) <= 2 ^ 7).
  { split; [apply Z.pow_pos_nonneg; lia | apply Z.pow_le_mono_r; lia]. }
  rewrite to_uint32_small; nia.
Qed.

Lemma AreAllIRQnsDisabled_run (s : Machine) :
  IRQ_AreAllIRQnsDisabled s =
  (PRIMASK s || (has_BASEPRI && threshold_masking_active s), s).
Proof.
  unfold IRQ_AreAllIRQnsDisabled, threshold_masking_active.
  unfold_primask. by destruct has_BASEPRI, (PRIMASK s).
Qed.

(** C2 (amended). For every valid interrupt line and every state in which
    [IRQ_AreAllIRQnsDisabled()] returns true: if PRIMASK is set,
    [IRQ_IsIRQnBlocked(line)] returns true whatever the enable bit and the
    priority of the line; if PRIMASK is clear, so that the answer comes from
    the threshold register alone, BASEPRI is non-zero and
    [IRQ_IsIRQnBlocked(line)] returns true exactly when the enable bit of the
    line is clear, or the priority of the line is at least the priority field
    of BASEPRI, or a handler is active whose priority is at most the priority
    of the line. *)
Theorem C2_blocked_when_all_disabled (irqNum : Z) (s : Machine) :
  0 <= irqNum ->
  IsIRQnBlocked_assert irqNum = true ->
  1 <= __NVIC_PRIO_BITS <= 8 ->
  (has_BASEPRI = true -> 0 < basePriLevel s <= INTERRUPT_LOWEST_PRIORITY) ->
  eval IRQ_AreAllIRQnsDisabled s = true ->
  let irqPri := IPR s irqNum in
  let activeIrq :=
    Z.shiftr (Z.land (ICSR s) SCB_ICSR_VECTACTIVE_Msk) SCB_ICSR_VECTACTIVE_Pos in
  (PRIMASK s = true -> eval (IRQ_IsIRQnBlocked irqNum) s = Some true)
  /\ (PRIMASK s = false ->
      has_BASEPRI = true /\ BASEPRI s <> 0
      /\ eval (IRQ_IsIRQnBlocked irqNum) s
         = Some (negb (mask_bit (NVIC_enable s) irqNum)
                 || (Z.shiftr (BASEPRI s) BASEPRI_START_BIT <=? irqPri)
                 || (negb (activeIrq =? 0)
                     && (IPR s (to_int32 (to_uint32 (activeIrq - 16))) <=? irqPri)))).
Proof.
  intros H0 Hassert Hbits Hlevel Hall irqPri activeIrq.
  pose proof (assert_upper _ Hassert) as Hup.
  unfold eval in *. rewrite AreAllIRQnsDisabled_run in Hall. cbn [fst] in Hall.
  rewrite IsIRQnBlocked_run by done. unfold eval.
  rewrite IsIRQnDisabled_valid by lia. cbn [fst].
  fold irqPri. fold activeIrq. split.
  - intros Hp. by rewrite Hp.
  - intros Hp. rewrite Hp in *. cbn [orb] in Hall.
    apply andb_true_iff in Hall as [Hb Hact].
    specialize (Hlevel Hb). pose proof INTERRUPT_LOWEST_PRIORITY_le.
    assert (BASEPRI s <> 0) as Hnz.
    { unfold threshold_masking_active in Hact. apply Z.leb_le in Hact.
      pose proof (threshold_value_pos (basePriLevel s) Hbits ltac:(lia)). lia. }
    split; [done|]. split; [done|].
    rewrite Hb. apply Z.eqb_neq in Hnz. by rewrite Hnz.
Qed.

(** ** Nested sections *)

Lemma SetPriorityLevelThreshold_run (level : Z) (s : Machine) :
  BASEPRI_SetPriorityLevelThreshold level s =
  if has_BASEPRI && IS_INT_LVL_VALID level
  then (true, set_basePriLevel (to_int8 level) s)
  else (false, s).
Proof.
  unfold BASEPRI_SetPriorityLevelThreshold.
  by destruct has_BASEPRI, (IS_INT_LVL_VALID level).
Qed.

Lemma SetPriorityLevelThreshold_masks (level : Z) (s : Machine) :
  PRIMASK (exec (BASEPRI_SetPriorityLevelThreshold level) s) = PRIMASK s
  /\ BASEPRI (exec (BASEPRI_SetPriorityLevelThreshold level) s) = BASEPRI s.
Proof.
  unfold exec. rewrite SetPriorityLevelThreshold_run.
  by destruct (has_BASEPRI && IS_INT_LVL_VALID level).
Qed.

Lemma land_0xFF_id (v : Z) : 0 <= v < 256 -> Z.land v 0xFF = v.
Proof.
  intros H. change 0xFF with (Z.ones 8). rewrite Z.land_ones by lia.
  apply Z.mod_small. lia.
Qed.

Lemma land_0xFF_range (v : Z) : 0 <= Z.land v 0xFF < 256.
Proof.
  change 0xFF with (Z.ones 8). rewrite Z.land_ones by lia.
  apply Z.mod_pos_bound. lia.
Qed.

Lemma run_critical_masks (p : Nest) : forall s : Machine,
  PRIMASK (exec (run_critical p) s) = PRIMASK s
  /\ BASEPRI (exec (run_critical p) s) = BASEPRI s.
Proof.
  induction p as [|level rest IH|inner IHi rest IHr]; intros s.
  - done.
  - cbn [run_critical]. unfold exec in *. cbv beta iota delta [mbind M_bind].
    destruct (BASEPRI_SetPriorityLevelThreshold level s) as [ok s1] eqn:E.
    pose proof (SetPriorityLevelThreshold_masks level s) as [Hp Hb].
    unfold exec in Hp, Hb. rewrite E in Hp, Hb. cbn [snd] in Hp, Hb.
    destruct (IH s1) as [Hp1 Hb1]. by rewrite Hp1, Hb1.
  - cbn [run_critical]. unfold exec in *. unfold_primask.
    set (s1 := log EvCPSID (set_PRIMASK true s)).
    destruct (IHi s1) as [Hpi Hbi].
    destruct (run_critical inner s1) as [[] s2]. cbn [snd] in Hpi, Hbi.
    destruct (PRIMASK s) eqn:Hp; cbn [Z.b2z Z.eqb].
    + destruct (IHr s2) as [Hpr Hbr]. by rewrite Hpr, Hbr, Hpi, Hbi.
    + destruct (IHr (log EvCPSIE (set_PRIMASK false s2))) as [Hpr Hbr].
      by rewrite Hpr, Hbr.
Qed.

Lemma run_threshold_masks (p : Nest) : forall s : Machine,
  0 <= BASEPRI s < 256 ->
  PRIMASK (exec (run_threshold p) s) = PRIMASK s
  /\ BASEPRI (exec (run_threshold p) s) = BASEPRI s.
Proof.
  induction p as [|level rest IH|inner IHi rest IHr]; intros s Hrange.
  - done.
  - cbn [run_threshold]. unfold exec in *. cbv beta iota delta [mbind M_bind].
    destruct (BASEPRI_SetPriorityLevelThreshold level s) as [ok s1] eqn:E.
    pose proof (SetPriorityLevelThreshold_masks level s) as [Hp Hb].
    unfold exec in Hp, Hb. rewrite E in Hp, Hb. cbn [snd] in Hp, Hb.
    destruct (IH s1) as [Hp1 Hb1]; [by rewrite Hb|]. by rewrite Hp1, Hb1.
  - cbn [run_threshold]. unfold exec in *.
    unfold BASEPRI_EnterInterruptsDisabledByThresholdSection,
      BASEPRI_ExitInterruptsDisabledByThresholdSection.
    destruct has_BASEPRI.
    + unfold_primask.
      set (s1 := log _ (set_BASEPRI _ s)).
      destruct (IHi s1) as [Hpi Hbi]; [apply land_0xFF_range|].
      destruct (run_threshold inner s1) as [[] s2]. cbn [snd] in Hpi, Hbi.
      set (s3 := log _ (set_BASEPRI _ s2)).
      destruct (IHr s3) as [Hpr Hbr]; [apply land_0xFF_range|].
      rewrite Hpr, Hbr. subst s3. cbn. rewrite Hpi. split; [done|].
      by apply land_0xFF_id.
    + unfold_primask.
      set (s1 := log EvCPSID (set_PRIMASK true s)).
      destruct (IHi s1) as [Hpi Hbi]; [done|].
      destruct (run_threshold inner s1) as [[] s2]. cbn [snd] in Hpi, Hbi.
      destruct (PRIMASK s) eqn:Hp; cbn [Z.b2z Z.eqb].
      * destruct (IHr s2) as [Hpr Hbr]; [by rewrite Hbi|].
        by rewrite Hpr, Hbr, Hpi, Hbi.
      * destruct (IHr (log EvCPSIE (set_PRIMASK false s2))) as [Hpr Hbr];
          [cbn; by rewrite Hbi|].
        by rewrite Hpr, Hbr.
Qed.

Lemma depth_nested (n : nat) : depth (nested n) = n.
Proof. induction n as [|n IH]; [done|]. cbn [nested depth]. rewrite IH. lia. Qed.

(** C4. A properly nested sequence of Enter and Exit calls, each Exit given
    the state its Enter returned, nested to any depth and with changes of the
    configured threshold anywhere in between, ends with PRIMASK and BASEPRI
    holding exactly what they held before the first Enter; this holds for
    the PRIMASK pair and for the BASEPRI pair, with and without the BASEPRI
    register. *)
Theorem C4_nested_sections_restore (p : Nest) (s : Machine) :
  0 <= BASEPRI s < 256 ->
  (PRIMASK (exec (run_critical p) s) = PRIMASK s
   /\ BASEPRI (exec (run_critical p) s) = BASEPRI s)
  /\ (PRIMASK (exec (run_threshold p) s) = PRIMASK s
      /\ BASEPRI (exec (run_threshold p) s) = BASEPRI s).
Proof.
  intros Hrange. split; [apply run_critical_masks | by apply run_threshold_masks].
Qed.

(** ** Configuring the threshold *)

Lemma set_thresholds_level (levels : list Z) : forall s : Machine,
  Forall (fun level => 0 <= level < 256) levels ->
  let r := basePriLevel (exec (set_thresholds levels) s) in
  r = basePriLevel s
  \/ (has_BASEPRI = true /\ r ∈ levels /\ 0 < r <= INTERRUPT_LOWEST_PRIORITY).
Proof.
  induction levels as [|level rest IH]; intros s Hall; [by left|].
  apply Forall_cons in Hall as [Hlevel Hall].
  cbn [set_thresholds]. unfold exec. cbv beta iota delta [mbind M_bind mret M_ret].
  rewrite SetPriorityLevelThreshold_run.
  pose proof INTERRUPT_LOWEST_PRIORITY_le as Hlow.
  destruct (has_BASEPRI && IS_INT_LVL_VALID level) eqn:Hok.
  - specialize (IH (set_basePriLevel (to_int8 level) s) Hall).
    unfold exec in IH. destruct (set_thresholds rest _) as [oks s1].
    cbn [snd] in *. apply andb_true_iff in Hok as [Hb Hv].
    apply IS_INT_LVL_VALID_iff in Hv; [|lia].
    destruct IH as [IH|(Hb' & Hin & Hr)].
    + right. rewrite IH. cbn. rewrite to_int8_small by lia.
      split; [done|]. split; [by apply elem_of_cons; left | done].
    + right. split; [done|]. split; [by apply elem_of_cons; right | done].
  - specialize (IH s Hall). unfold exec in IH.
    destruct (set_thresholds rest s) as [oks s1]. cbn [snd] in *.
    destruct IH as [IH|(Hb' & Hin & Hr)]; [by left|].
    right. split; [done|]. split; [by apply elem_of_cons; right | done].
Qed.

(** C6. [BASEPRI_SetPriorityLevelThreshold(level)] returns true if and only
    if the core has BASEPRI and [0 < level <= INTERRUPT_LOWEST_PRIORITY];
    without BASEPRI it returns false; a rejected request changes nothing; an
    accepted one stores [level], which [BASEPRI_GetPriorityLevelThreshold]
    then returns; and after any sequence of requests the getter returns the
    initial value (3, or -1 without BASEPRI) or a level that was requested
    and lies in the valid range. *)
Theorem C6_threshold_setter (level : Z) (levels : list Z) (s : Machine) :
  0 <= level < 256 ->
  Forall (fun l => 0 <= l < 256) levels ->
  (eval (BASEPRI_SetPriorityLevelThreshold level) s = true
   <-> has_BASEPRI = true /\ 0 < level <= INTERRUPT_LOWEST_PRIORITY)
  /\ (has_BASEPRI = false -> eval (BASEPRI_SetPriorityLevelThreshold level) s = false)
  /\ (eval (BASEPRI_SetPriorityLevelThreshold level) s = false ->
      exec (BASEPRI_SetPriorityLevelThreshold level) s = s)
  /\ (eval (BASEPRI_SetPriorityLevelThreshold level) s = true ->
      eval BASEPRI_GetPriorityLevelThreshold
        (exec (BASEPRI_SetPriorityLevelThreshold level) s) = level)
  /\ (initial s ->
      let r := eval BASEPRI_GetPriorityLevelThreshold (exec (set_thresholds levels) s) in
      r = basePriLevel_init
      \/ (has_BASEPRI = true /\ r ∈ levels /\ 0 < r <= INTERRUPT_LOWEST_PRIORITY)).
Proof.
  intros Hlevel Hall. pose proof INTERRUPT_LOWEST_PRIORITY_le as Hlow.
  unfold eval, exec. rewrite SetPriorityLevelThreshold_run.
  pose proof (IS_INT_LVL_VALID_iff level ltac:(lia)) as Hv.
  split; [|split; [|split; [|split]]].
  - destruct has_BASEPRI, (IS_INT_LVL_VALID level); cbn; intuition congruence.
  - intros ->. done.
  - by destruct (has_BASEPRI && IS_INT_LVL_VALID level).
  - destruct (has_BASEPRI && IS_INT_LVL_VALID level) eqn:E; [|done].
    intros _. apply andb_true_iff in E as [_ E]. apply Hv in E.
    cbn. apply to_int8_small. lia.
  - intros Hinit. pose proof (set_thresholds_level levels s Hall) as H.
    unfold initial in Hinit. rewrite Hinit in H. exact H.
Qed.

(** ** Letting pending interrupts in *)

(** The threshold test against the calls around it: it fails while BASEPRI
    is zero, and it holds inside a section entered with a level that fits the
    implemented priority bits. *)
Lemma threshold_inactive_at_zero (s : Machine) :
  1 <= __NVIC_PRIO_BITS <= 8 -> 0 < basePriLevel s <= 7 -> BASEPRI s = 0 ->
  threshold_masking_active s = false.
Proof.
  intros Hbits Hlevel H0. unfold threshold_masking_active. rewrite H0.
  apply Z.leb_gt. by apply threshold_value_pos.
Qed.

Lemma threshold_active_after_Enter (s : Machine) :
  has_BASEPRI = true -> 1 <= __NVIC_PRIO_BITS <= 8 ->
  0 < basePriLevel s < 2 ^ __NVIC_PRIO_BITS ->
  threshold_masking_active
    (exec BASEPRI_EnterInterruptsDisabledByThresholdSection s) = true.
Proof.
  intros Hb Hbits Hlevel.
  unfold exec, BASEPRI_EnterInterruptsDisabledByThresholdSection. rewrite Hb.
  unfold_primask. unfold threshold_masking_active. cbn.
  apply Z.leb_le. rewrite land_0xFF_id; [lia|].
  unfold threshold_value, BASEPRI_START_BIT.
  rewrite (to_uint32_small (8 - __NVIC_PRIO_BITS)) by lia.
  rewrite Z.shiftl_mul_pow2 by lia.
  assert (2 ^ __NVIC_PRIO_BITS * 2 ^ (8 - __NVIC_PRIO_BITS) = 2 ^ 8) as Hpow
    by (rewrite <- Z.pow_add_r by lia; f_equal; lia).
  assert (0 < 2 ^ (8 - __NVIC_PRIO_BITS)) by (apply Z.pow_pos_nonneg; lia).
  rewrite to_uint32_small; nia.
Qed.

Lemma BASEPRI_Trigger_active (s : Machine) :
  has_BASEPRI = true -> 0 <= BASEPRI s < 256 -> threshold_masking_active s = true ->
  exec BASEPRI_TriggerPendingInterruptsByThreshold s
  = log (EvBASEPRI (BASEPRI s))
      (set_BASEPRI (BASEPRI s) (log EvISB (log (EvBASEPRI 0) (set_BASEPRI 0 s)))).
Proof.
  intros Hb Hrange Hact. unfold exec, BASEPRI_TriggerPendingInterruptsByThreshold.
  rewrite Hb. unfold_primask. unfold threshold_masking_active in Hact.
  rewrite Hact. cbn. by rewrite land_0xFF_id.
Qed.

Lemma BASEPRI_Trigger_inactive (s : Machine) :
  has_BASEPRI = true -> threshold_masking_active s = false ->
  exec BASEPRI_TriggerPendingInterruptsByThreshold s = s.
Proof.
  intros Hb Hact. unfold exec, BASEPRI_TriggerPendingInterruptsByThreshold.
  rewrite Hb. unfold_primask. unfold threshold_masking_active in Hact.
  by rewrite Hact.
Qed.

Lemma Enter_threshold_BASEPRI_range (s : Machine) :
  has_BASEPRI = true ->
  0 <= BASEPRI (exec BASEPRI_EnterInterruptsDisabledByThresholdSection s) < 256.
Proof.
  intros Hb. unfold exec, BASEPRI_EnterInterruptsDisabledByThresholdSection.
  rewrite Hb. unfold_primask. cbn. apply land_0xFF_range.
Qed.

(** C8 (amended). [PRIMASK_TriggerPendingInterrupts], called with PRIMASK set, clears
    PRIMASK, then issues the barrier, then sets PRIMASK again, and writes
    nothing when PRIMASK is clear.
    [BASEPRI_TriggerPendingInterruptsByThreshold], called with the threshold
    register at or beyond the configured cutoff, as it is inside a threshold
    section, writes zero to BASEPRI, then issues the barrier, then writes
    back the value BASEPRI held at entry; it writes nothing otherwise, in
    particular while BASEPRI is zero; without BASEPRI it is the PRIMASK
    operation. *)
Theorem C8_trigger_pending (s : Machine) :
  0 <= BASEPRI s < 256 ->
  (PRIMASK s = true ->
     exec PRIMASK_TriggerPendingInterrupts s
     = log EvCPSID (set_PRIMASK true (log EvISB (log EvCPSIE (set_PRIMASK false s))))
     /\ trace (exec PRIMASK_TriggerPendingInterrupts s)
        = trace s ++ [EvCPSIE; EvISB; EvCPSID]
     /\ PRIMASK (exec PRIMASK_TriggerPendingInterrupts s) = PRIMASK s)
  /\ (PRIMASK s = false -> exec PRIMASK_TriggerPendingInterrupts s = s)
  /\ (has_BASEPRI = true -> threshold_masking_active s = true ->
      exec BASEPRI_TriggerPendingInterruptsByThreshold s
      = log (EvBASEPRI (BASEPRI s))
          (set_BASEPRI (BASEPRI s) (log EvISB (log (EvBASEPRI 0) (set_BASEPRI 0 s))))
      /\ trace (exec BASEPRI_TriggerPendingInterruptsByThreshold s)
         = trace s ++ [EvBASEPRI 0; EvISB; EvBASEPRI (BASEPRI s)]
      /\ BASEPRI (exec BASEPRI_TriggerPendingInterruptsByThreshold s) = BASEPRI s)
  /\ (has_BASEPRI = true -> threshold_masking_active s = false ->
      exec BASEPRI_TriggerPendingInterruptsByThreshold s = s)
  /\ (has_BASEPRI = true -> 1 <= __NVIC_PRIO_BITS <= 8 -> 0 < basePriLevel s <= 7 ->
      BASEPRI s = 0 ->
      exec BASEPRI_TriggerPendingInterruptsByThreshold s = s)
  /\ (has_BASEPRI = true -> 1 <= __NVIC_PRIO_BITS <= 8 ->
      0 < basePriLevel s < 2 ^ __NVIC_PRIO_BITS ->
      let s1 := exec BASEPRI_EnterInterruptsDisabledByThresholdSection s in
      trace (exec BASEPRI_TriggerPendingInterruptsByThreshold s1)
      = trace s1 ++ [EvBASEPRI 0; EvISB; EvBASEPRI (BASEPRI s1)]
      /\ BASEPRI (exec BASEPRI_TriggerPendingInterruptsByThreshold s1) = BASEPRI s1)
  /\ (has_BASEPRI = false ->
      BASEPRI_TriggerPendingInterruptsByThreshold = PRIMASK_TriggerPendingInterrupts).
Proof.
  intros Hrange. split; [|split; [|split; [|split; [|split; [|split]]]]].
  - intros Hp. unfold exec, PRIMASK_TriggerPendingInterrupts. unfold_primask.
    rewrite primask_bit, Hp. cbn. rewrite <- !app_assoc. done.
  - intros Hp. unfold exec, PRIMASK_TriggerPendingInterrupts. unfold_primask.
    by rewrite primask_bit, Hp.
  - intros Hb Hact. rewrite BASEPRI_Trigger_active by done.
    split; [done|]. cbn. by rewrite <- !app_assoc.
  - apply BASEPRI_Trigger_inactive.
  - intros Hb Hbits Hlevel H0.
    by apply BASEPRI_Trigger_inactive, threshold_inactive_at_zero.
  - intros Hb Hbits Hlevel s1.
    rewrite BASEPRI_Trigger_active;
      [| done | by apply Enter_threshold_BASEPRI_range
       | by apply threshold_active_after_Enter].
    cbn. by rewrite <- !app_assoc.
  - intros Hb. unfold BASEPRI_TriggerPendingInterruptsByThreshold. by rewrite Hb.
Qed.

(** * Further properties *)

(** ** Masks, line by line *)

Lemma is_uint32_of_bits (w : Z) :
  (forall n, 32 <= n -> Z.testbit w n = false) -> is_uint32 w = true.
Proof.
  intros Hhigh. apply is_uint32_range.
  assert (Z.land w (Z.ones 32) = w) as Heq.
  { apply Z.bits_inj'. intros n Hn. rewrite Z.land_spec, Z.testbit_ones_nonneg by lia.
    destruct (Z.ltb_spec n 32); [apply andb_true_r|].
    rewrite Hhigh by lia. reflexivity. }
  rewrite Z.land_ones in Heq by lia. rewrite <- Heq. apply Z.mod_pos_bound. lia.
Qed.

Lemma wf_mask_intro (m : NVIC_Mask_t) :
  length (reg m) = 8%nat ->
  (forall i, 0 <= i < 8 -> is_uint32 (reg_get m i) = true) ->
  wf_mask m = true.
Proof.
  intros Hlen Hall. unfold wf_mask. rewrite Hlen. cbn [Nat.eqb andb].
  apply forallb_forall. intros w Hw.
  apply list_elem_of_In, list_elem_of_lookup_total_1 in Hw as (n & Hn & <-).
  specialize (Hall (Z.of_nat n)). unfold reg_get in Hall.
  rewrite Nat2Z.id in Hall. apply Hall. lia.
Qed.

Lemma wf_mask_zip (f : Z -> Z -> Z) (a b : NVIC_Mask_t) :
  (forall x y, is_uint32 x = true -> is_uint32 y = true -> is_uint32 (f x y) = true) ->
  wf_mask a = true -> wf_mask b = true -> wf_mask (mask_zip f a b) = true.
Proof.
  intros Hf Ha Hb.
  pose proof (wf_mask_length _ Ha) as Hla. pose proof (wf_mask_length _ Hb) as Hlb.
  apply wf_mask_intro; [by apply mask_zip_length|].
  intros i Hi. rewrite reg_get_mask_zip by done. apply Hf; by apply wf_mask_word.
Qed.

Lemma is_uint32_lor (x y : Z) :
  is_uint32 x = true -> is_uint32 y = true -> is_uint32 (Z.lor x y) = true.
Proof.
  intros Hx Hy. apply is_uint32_of_bits. intros n Hn.
  by rewrite Z.lor_spec, !is_uint32_high.
Qed.

Lemma is_uint32_ldiff (x y : Z) :
  is_uint32 x = true -> is_uint32 y = true -> is_uint32 (Z.ldiff x y) = true.
Proof.
  intros Hx Hy. apply is_uint32_of_bits. intros n Hn.
  by rewrite Z.ldiff_spec, !is_uint32_high.
Qed.

Lemma is_uint32_land_l (x y : Z) : is_uint32 x = true -> is_uint32 (Z.land x y) = true.
Proof.
  intros Hx. apply is_uint32_of_bits. intros n Hn.
  by rewrite Z.land_spec, is_uint32_high.
Qed.

Lemma is_uint32_bit (k : Z) : 0 <= k < 32 -> is_uint32 (Z.shiftl 1 k) = true.
Proof.
  intros Hk. apply is_uint32_of_bits. intros n Hn.
  rewrite testbit_bit by lia. apply Z.eqb_neq. lia.
Qed.

(** Two well-formed masks with the same lines are the same mask. *)
Lemma mask_bit_ext (a b : NVIC_Mask_t) :
  wf_mask a = true -> wf_mask b = true ->
  (forall line, 0 <= line < 256 -> mask_bit a line = mask_bit b line) -> a = b.
Proof.
  intros Ha Hb Heq. apply mask_ext; [by apply wf_mask_length..|].
  intros i Hi. apply Z.bits_inj'. intros n Hn.
  destruct (Z.ltb_spec n 32) as [Hlt|Hge].
  - specialize (Heq (32 * i + n) ltac:(lia)). unfold mask_bit in Heq.
    replace ((32 * i + n) / 32) with i in Heq by (apply Z.div_unique with n; lia).
    replace ((32 * i + n) mod 32) with n in Heq
      by (apply Z.mod_unique with i; lia).
    exact Heq.
  - rewrite !is_uint32_high; (done || lia || by apply wf_mask_word).
Qed.

Lemma line_word_range (line : Z) : 0 <= line < 256 -> 0 <= line / 32 < 8.
Proof.
  intros H. split; [apply Z.div_pos; lia | apply Z.div_lt_upper_bound; lia].
Qed.

Lemma wf_mask_Set (irqNum : Z) (m : NVIC_Mask_t) :
  wf_mask m = true -> wf_mask (NVIC_SetSpecificInterruptInAMask irqNum m) = true.
Proof.
  intros Hwf. pose proof (wf_mask_length m Hwf) as Hlen.
  unfold NVIC_SetSpecificInterruptInAMask.
  destruct (IS_INTERRUPT_NUM irqNum); [|done].
  fold (word_index irqNum). fold (bit_index irqNum). cbv zeta.
  pose proof (word_index_range irqNum) as Hi. pose proof (bit_index_range irqNum) as Hk.
  apply wf_mask_intro; [by rewrite reg_set_length|].
  intros j Hj. destruct (Z.eq_dec (word_index irqNum) j) as [<-|Hne].
  - rewrite reg_get_set_eq by done.
    apply is_uint32_lor; [by apply wf_mask_word | by apply is_uint32_bit].
  - rewrite reg_get_set_ne by lia. by apply wf_mask_word.
Qed.

Lemma wf_mask_Clear (irqNum : Z) (m : NVIC_Mask_t) :
  wf_mask m = true -> wf_mask (NVIC_ClearSpecificInterruptInAMask irqNum m) = true.
Proof.
  intros Hwf. pose proof (wf_mask_length m Hwf) as Hlen.
  unfold NVIC_ClearSpecificInterruptInAMask.
  destruct (IS_INTERRUPT_NUM irqNum); [|done].
  fold (word_index irqNum). fold (bit_index irqNum). cbv zeta.
  pose proof (word_index_range irqNum) as Hi.
  apply wf_mask_intro; [by rewrite reg_set_length|].
  intros j Hj. destruct (Z.eq_dec (word_index irqNum) j) as [<-|Hne].
  - rewrite reg_get_set_eq by done. apply is_uint32_land_l. by apply wf_mask_word.
  - rewrite reg_get_set_ne by lia. by apply wf_mask_word.
Qed.

Lemma mask_bit_Set (irqNum : Z) (m : NVIC_Mask_t) (line : Z) :
  wf_mask m = true -> 0 <= irqNum < 0xF0 -> 0 <= line < 256 ->
  mask_bit (NVIC_SetSpecificInterruptInAMask irqNum m) line
  = mask_bit m line || (line =? irqNum).
Proof.
  intros Hwf Hirq Hline. pose proof (wf_mask_length m Hwf) as Hlen.
  pose proof (word_index_range irqNum) as Hi.
  pose proof (bit_index_range irqNum) as Hk.
  pose proof (line_word_range line Hline) as Hw.
  assert (0 <= line mod 32 < 32) as Hb by (apply Z.mod_pos_bound; lia).
  rewrite Set_valid by (apply IS_INTERRUPT_NUM_valid; lia).
  unfold mask_bit.
  destruct (Z.eq_dec (word_index irqNum) (line / 32)) as [Heq|Hne].
  - rewrite <- Heq, reg_get_set_eq by done.
    rewrite Z.lor_spec, testbit_bit by lia. f_equal.
    rewrite word_index_valid in Heq by lia. rewrite bit_index_valid by lia.
    destruct (Z.eqb_spec (line mod 32) (irqNum mod 32)) as [Hr|Hr],
             (Z.eqb_spec line irqNum) as [He|He]; try reflexivity.
    + exfalso. apply He. apply line_of_indices; (lia || done).
    + exfalso. subst. done.
  - rewrite reg_get_set_ne by lia.
    destruct (Z.eqb_spec line irqNum) as [->|_]; [|by rewrite orb_false_r].
    exfalso. apply Hne. apply word_index_valid. lia.
Qed.

(** X1. For a valid interrupt line, [NVIC_SetSpecificInterruptInAMask] turns
    that line on in the mask and changes no other line, and
    [NVIC_ClearSpecificInterruptInAMask] turns it off and changes no other
    line; the result is again eight 32-bit words. *)
Theorem Set_Clear_one_line (irqNum : Z) (m : NVIC_Mask_t) :
  wf_mask m = true ->
  0 <= irqNum < 0xF0 ->
  (wf_mask (NVIC_SetSpecificInterruptInAMask irqNum m) = true
   /\ forall line, 0 <= line < 256 ->
        mask_bit (NVIC_SetSpecificInterruptInAMask irqNum m) line
        = if line =? irqNum then true else mask_bit m line)
  /\ (wf_mask (NVIC_ClearSpecificInterruptInAMask irqNum m) = true
      /\ forall line, 0 <= line < 256 ->
           mask_bit (NVIC_ClearSpecificInterruptInAMask irqNum m) line
           = if line =? irqNum then false else mask_bit m line).
Proof.
  intros Hwf Hirq. split; (split; [by (apply wf_mask_Set || apply wf_mask_Clear)|]).
  - intros line Hline. rewrite mask_bit_Set by done.
    destruct (line =? irqNum); [apply orb_true_r | apply orb_false_r].
  - intros line Hline. rewrite mask_bit_Clear by done.
    destruct (line =? irqNum); [apply andb_false_r | apply andb_true_r].
Qed.

(** X2. Building a mask does not depend on the order of the calls: two
    [NVIC_SetSpecificInterruptInAMask] calls commute, two
    [NVIC_ClearSpecificInterruptInAMask] calls commute, a Set and a Clear of
    different lines commute, each operation is idempotent, and for one line
    the last call wins. *)
Theorem mask_operations_compose (a b : Z) (m : NVIC_Mask_t) :
  wf_mask m = true ->
  0 <= a < 0xF0 ->
  0 <= b < 0xF0 ->
  NVIC_SetSpecificInterruptInAMask a (NVIC_SetSpecificInterruptInAMask b m)
  = NVIC_SetSpecificInterruptInAMask b (NVIC_SetSpecificInterruptInAMask a m)
  /\ NVIC_ClearSpecificInterruptInAMask a (NVIC_ClearSpecificInterruptInAMask b m)
     = NVIC_ClearSpecificInterruptInAMask b (NVIC_ClearSpecificInterruptInAMask a m)
  /\ (a <> b ->
      NVIC_SetSpecificInterruptInAMask a (NVIC_ClearSpecificInterruptInAMask b m)
      = NVIC_ClearSpecificInterruptInAMask b (NVIC_SetSpecificInterruptInAMask a m))
  /\ NVIC_SetSpecificInterruptInAMask a (NVIC_SetSpecificInterruptInAMask a m)
     = NVIC_SetSpecificInterruptInAMask a m
  /\ NVIC_ClearSpecificInterruptInAMask a (NVIC_ClearSpecificInterruptInAMask a m)
     = NVIC_ClearSpecificInterruptInAMask a m
  /\ NVIC_SetSpecificInterruptInAMask a (NVIC_ClearSpecificInterruptInAMask a m)
     = NVIC_SetSpecificInterruptInAMask a m.
Proof.
  intros Hwf Ha Hb.
  assert (forall x y : NVIC_Mask_t, wf_mask x = true -> wf_mask y = true ->
            (forall line, 0 <= line < 256 -> mask_bit x line = mask_bit y line) -> x = y)
    as Hext by apply mask_bit_ext.
  repeat split; try intros Hne;
    (apply Hext; [by repeat (apply wf_mask_Set || apply wf_mask_Clear)..|]);
    intros line Hline;
    repeat first
      [ rewrite mask_bit_Set
          by (done || by repeat (apply wf_mask_Set || apply wf_mask_Clear))
      | rewrite mask_bit_Clear
          by (done || by repeat (apply wf_mask_Set || apply wf_mask_Clear)) ];
    destruct (mask_bit m line), (Z.eqb_spec line a), (Z.eqb_spec line b);
    try reflexivity; exfalso; lia.
Qed.

(** ** Writing and reading the enable register *)

Lemma NO_INTERRUPTS_SECTION_frame {A : Type} (body : M A) (s : Machine) :
  (forall s0, PRIMASK (exec body s0) = PRIMASK s0
              /\ BASEPRI (exec body s0) = BASEPRI s0
              /\ basePriLevel (exec body s0) = basePriLevel s0) ->
  PRIMASK (exec (NO_INTERRUPTS_SECTION body) s) = PRIMASK s
  /\ BASEPRI (exec (NO_INTERRUPTS_SECTION body) s) = BASEPRI s
  /\ basePriLevel (exec (NO_INTERRUPTS_SECTION body) s) = basePriLevel s.
Proof.
  intros Hbody. unfold exec in *. rewrite NO_INTERRUPTS_SECTION_run.
  specialize (Hbody (log EvCPSID (set_PRIMASK true s))).
  destruct (body _) as [r s1]. cbn [snd] in *. destruct Hbody as (Hp & Hb & Hl).
  destruct (PRIMASK s) eqn:E; cbn; rewrite ?Hp, ?Hb, ?Hl; done.
Qed.

Lemma Disable_frame (d : NVIC_Mask_t) (s : Machine) :
  PRIMASK (exec (NVIC_DisableSpecificInterrupts d) s) = PRIMASK s
  /\ BASEPRI (exec (NVIC_DisableSpecificInterrupts d) s) = BASEPRI s
  /\ basePriLevel (exec (NVIC_DisableSpecificInterrupts d) s) = basePriLevel s.
Proof. by apply NO_INTERRUPTS_SECTION_frame. Qed.

Lemma Enable_frame (e : NVIC_Mask_t) (s : Machine) :
  PRIMASK (exec (NVIC_EnableSpecificInterrupts e) s) = PRIMASK s
  /\ BASEPRI (exec (NVIC_EnableSpecificInterrupts e) s) = BASEPRI s
  /\ basePriLevel (exec (NVIC_EnableSpecificInterrupts e) s) = basePriLevel s.
Proof. by apply NO_INTERRUPTS_SECTION_frame. Qed.

Lemma mask_bit_Disable (d : NVIC_Mask_t) (s : Machine) (line : Z) :
  wf_mask (NVIC_enable s) = true -> wf_mask d = true -> 0 <= line < 256 ->
  mask_bit (NVIC_enable (exec (NVIC_DisableSpecificInterrupts d) s)) line
  = mask_bit (NVIC_enable s) line && negb (mask_bit d line).
Proof.
  intros He Hd Hline. rewrite Disable_enable.
  apply (mask_bit_zip Z.ldiff (fun x y => x && negb y));
    [apply Z.ldiff_spec | by apply wf_mask_length.. | done].
Qed.

Lemma mask_bit_Enable (e : NVIC_Mask_t) (s : Machine) (line : Z) :
  wf_mask (NVIC_enable s) = true -> wf_mask e = true -> 0 <= line < 256 ->
  mask_bit (NVIC_enable (exec (NVIC_EnableSpecificInterrupts e) s)) line
  = mask_bit (NVIC_enable s) line || mask_bit e line.
Proof.
  intros He Hd Hline. rewrite Enable_enable.
  apply (mask_bit_zip Z.lor orb); [apply Z.lor_spec | by apply wf_mask_length.. | done].
Qed.

(** X3. [NVIC_DisableSpecificInterrupts(mask)] disables exactly the lines of
    the mask and [NVIC_EnableSpecificInterrupts(mask)] enables exactly the
    lines of the mask; every other line keeps its enable bit, the enable
    register stays eight 32-bit words, and PRIMASK, BASEPRI and the
    configured threshold are as before the call. *)
Theorem Enable_Disable_specific_lines (mask : NVIC_Mask_t) (s : Machine) :
  wf_mask (NVIC_enable s) = true ->
  wf_mask mask = true ->
  let sd := exec (NVIC_DisableSpecificInterrupts mask) s in
  let se := exec (NVIC_EnableSpecificInterrupts mask) s in
  (forall line, 0 <= line < 256 ->
     mask_bit (NVIC_enable sd) line
     = if mask_bit mask line then false else mask_bit (NVIC_enable s) line)
  /\ (forall line, 0 <= line < 256 ->
        mask_bit (NVIC_enable se) line
        = if mask_bit mask line then true else mask_bit (NVIC_enable s) line)
  /\ wf_mask (NVIC_enable sd) = true
  /\ wf_mask (NVIC_enable se) = true
  /\ (PRIMASK sd = PRIMASK s /\ BASEPRI sd = BASEPRI s
      /\ basePriLevel sd = basePriLevel s)
  /\ (PRIMASK se = PRIMASK s /\ BASEPRI se = BASEPRI s
      /\ basePriLevel se = basePriLevel s).
Proof.
  intros He Hm sd se. subst sd se.
  split; [|split; [|split; [|split; [|split]]]].
  - intros line Hline. rewrite mask_bit_Disable by done.
    destruct (mask_bit mask line); [apply andb_false_r | apply andb_true_r].
  - intros line Hline. rewrite mask_bit_Enable by done.
    destruct (mask_bit mask line); [apply orb_true_r | apply orb_false_r].
  - rewrite Disable_enable. by apply wf_mask_zip; [apply is_uint32_ldiff|..].
  - rewrite Enable_enable. by apply wf_mask_zip; [apply is_uint32_lor|..].
  - apply Disable_frame.
  - apply Enable_frame.
Qed.

Lemma wf_zero_mask : wf_mask zero_mask = true.
Proof. reflexivity. Qed.

Lemma mask_bit_zero_mask (line : Z) : 0 <= line < 256 -> mask_bit zero_mask line = false.
Proof.
  intros Hline. unfold mask_bit.
  rewrite reg_get_zero_mask by (by apply line_word_range). apply Z.bits_0.
Qed.

Lemma eval_IsIRQnDisabled_valid (irqNum : Z) (s : Machine) : 0 <= irqNum < 0xF0 ->
  eval (NVIC_IsIRQnDisabled irqNum) s = negb (mask_bit (NVIC_enable s) irqNum).
Proof. intros H. unfold eval. by rewrite IsIRQnDisabled_valid. Qed.

(** X4. A mask built for one line with [NVIC_SetSpecificInterruptInAMask]
    and handed to [NVIC_EnableSpecificInterrupts] makes [NVIC_IsIRQnDisabled]
    answer false for that line; handed to [NVIC_DisableSpecificInterrupts] it
    makes the answer true; the answer for any other line is as before. *)
Theorem line_query_after_mask_write (irqNum other : Z) (s : Machine) :
  wf_mask (NVIC_enable s) = true ->
  0 <= irqNum < 0xF0 ->
  0 <= other < 0xF0 ->
  other <> irqNum ->
  let mask := NVIC_SetSpecificInterruptInAMask irqNum zero_mask in
  eval (NVIC_IsIRQnDisabled irqNum) (exec (NVIC_EnableSpecificInterrupts mask) s) = false
  /\ eval (NVIC_IsIRQnDisabled irqNum) (exec (NVIC_DisableSpecificInterrupts mask) s)
     = true
  /\ eval (NVIC_IsIRQnDisabled other) (exec (NVIC_EnableSpecificInterrupts mask) s)
     = eval (NVIC_IsIRQnDisabled other) s
  /\ eval (NVIC_IsIRQnDisabled other) (exec (NVIC_DisableSpecificInterrupts mask) s)
     = eval (NVIC_IsIRQnDisabled other) s.
Proof.
  intros He Hirq Hother Hne mask.
  assert (wf_mask mask = true) as Hm by apply wf_mask_Set, wf_zero_mask.
  assert (mask_bit mask irqNum = true) as Hset.
  { unfold mask. rewrite mask_bit_Set by (done || lia || apply wf_zero_mask).
    rewrite Z.eqb_refl. apply orb_true_r. }
  assert (mask_bit mask other = false) as Hclear.
  { unfold mask. rewrite mask_bit_Set by (done || lia || apply wf_zero_mask).
    rewrite mask_bit_zero_mask by lia. by apply Z.eqb_neq. }
  rewrite !eval_IsIRQnDisabled_valid by done.
  rewrite !mask_bit_Enable, !mask_bit_Disable by (done || lia).
  rewrite Hset, Hclear.
  by destruct (mask_bit (NVIC_enable s) irqNum), (mask_bit (NVIC_enable s) other).
Qed.

Lemma GetNvicIserMask_run (s : Machine) :
  eval NVIC_GetNvicIserMask s = NVIC_enable s
  /\ NVIC_enable (exec NVIC_GetNvicIserMask s) = NVIC_enable s
  /\ PRIMASK (exec NVIC_GetNvicIserMask s) = PRIMASK s
  /\ BASEPRI (exec NVIC_GetNvicIserMask s) = BASEPRI s.
Proof.
  unfold eval, exec, NVIC_GetNvicIserMask. rewrite NO_INTERRUPTS_SECTION_run.
  unfold_primask. cbn. by destruct (PRIMASK s).
Qed.

(** X5. [NVIC_GetNvicIserMask] returns the enable register, line for line
    what [NVIC_IsIRQnDisabled] reports, and changes neither it nor PRIMASK;
    a snapshot taken with it and given to [NVIC_EnableSpecificInterrupts]
    after a [NVIC_DisableSpecificInterrupts] puts the enable register back
    exactly. *)
Theorem GetNvicIserMask_save_restore (disable : NVIC_Mask_t) (irqNum : Z) (s : Machine) :
  wf_mask (NVIC_enable s) = true ->
  wf_mask disable = true ->
  0 <= irqNum < 0xF0 ->
  let saved := eval NVIC_GetNvicIserMask s in
  let s1 := exec NVIC_GetNvicIserMask s in
  let s2 := exec (NVIC_DisableSpecificInterrupts disable) s1 in
  let s3 := exec (NVIC_EnableSpecificInterrupts saved) s2 in
  mask_bit saved irqNum = negb (eval (NVIC_IsIRQnDisabled irqNum) s)
  /\ NVIC_enable s1 = NVIC_enable s
  /\ PRIMASK s1 = PRIMASK s
  /\ NVIC_enable s3 = NVIC_enable s
  /\ PRIMASK s3 = PRIMASK s.
Proof.
  intros He Hd Hirq saved s1 s2 s3.
  destruct (GetNvicIserMask_run s) as (Hsaved & Hen & Hp & _).
  fold saved in Hsaved. fold s1 in Hen, Hp.
  split; [|split; [done|split; [done|split]]].
  - rewrite Hsaved, eval_IsIRQnDisabled_valid by done. by rewrite negb_involutive.
  - subst s3 s2. rewrite Enable_enable, Disable_enable, Hen, Hsaved.
    apply lor_ldiff_restore; by apply wf_mask_length.
  - subst s3 s2.
    destruct (Enable_frame saved (exec (NVIC_DisableSpecificInterrupts disable) s1))
      as (-> & _).
    destruct (Disable_frame disable s1) as (-> & _). done.
Qed.

(** ** The threshold register and the inspector *)

Lemma threshold_value_fits (level : Z) :
  1 <= __NVIC_PRIO_BITS <= 8 -> 0 <= level < 256 ->
  Z.land (threshold_value level) 0xFF
  = (level mod 2 ^ __NVIC_PRIO_BITS) * 2 ^ (8 - __NVIC_PRIO_BITS).
Proof.
  intros Hbits Hlevel. unfold threshold_value, BASEPRI_START_BIT.
  rewrite (to_uint32_small (8 - __NVIC_PRIO_BITS)) by lia.
  rewrite Z.shiftl_mul_pow2 by lia.
  assert (0 < 2 ^ (8 - __NVIC_PRIO_BITS) <= 2 ^ 7) as Hk
    by (split; [apply Z.pow_pos_nonneg; lia | apply Z.pow_le_mono_r; lia]).
  rewrite to_uint32_small by nia.
  change 0xFF with (Z.ones 8). rewrite Z.land_ones by lia.
  replace (2 ^ 8) with (2 ^ __NVIC_PRIO_BITS * 2 ^ (8 - __NVIC_PRIO_BITS))
    by (rewrite <- Z.pow_add_r by lia; f_equal; lia).
  apply Zmult_mod_distr_r.
Qed.

Lemma Enter_threshold_run (s : Machine) :
  has_BASEPRI = true ->
  BASEPRI_EnterInterruptsDisabledByThresholdSection s
  = (BASEPRI s,
     log (EvBASEPRI (threshold_value (basePriLevel s)))
       (set_BASEPRI (Z.land (threshold_value (basePriLevel s)) 0xFF) s)).
Proof.
  intros Hb. unfold BASEPRI_EnterInterruptsDisabledByThresholdSection.
  rewrite Hb. reflexivity.
Qed.

Lemma shiftr_priority_field (level : Z) :
  1 <= __NVIC_PRIO_BITS <= 8 -> 0 <= level ->
  Z.shiftr (level * 2 ^ (8 - __NVIC_PRIO_BITS)) BASEPRI_START_BIT = level.
Proof.
  intros Hbits Hlevel. unfold BASEPRI_START_BIT.
  rewrite (to_uint32_small (8 - __NVIC_PRIO_BITS)) by lia.
  rewrite Z.shiftr_div_pow2 by lia. apply Z.div_mul.
  apply Z.pow_nonzero; lia.
Qed.

(** X8. With BASEPRI present,
    [BASEPRI_EnterInterruptsDisabledByThresholdSection] returns the value
    BASEPRI held and leaves in BASEPRI the configured level, reduced modulo
    the number of implemented priority levels, in the top priority bits; a
    level that fits the implemented bits is read back from the priority
    field unchanged.  PRIMASK and the enable register are not touched. *)
Theorem threshold_Enter_encodes_level (s : Machine) :
  has_BASEPRI = true ->
  1 <= __NVIC_PRIO_BITS <= 8 ->
  0 <= basePriLevel s < 128 ->
  let s1 := exec BASEPRI_EnterInterruptsDisabledByThresholdSection s in
  eval BASEPRI_EnterInterruptsDisabledByThresholdSection s = BASEPRI s
  /\ BASEPRI s1
     = (basePriLevel s mod 2 ^ __NVIC_PRIO_BITS) * 2 ^ (8 - __NVIC_PRIO_BITS)
  /\ (basePriLevel s < 2 ^ __NVIC_PRIO_BITS ->
      Z.shiftr (BASEPRI s1) BASEPRI_START_BIT = basePriLevel s)
  /\ PRIMASK s1 = PRIMASK s
  /\ NVIC_enable s1 = NVIC_enable s.
Proof.
  intros Hb Hbits Hlevel s1. subst s1. unfold eval, exec.
  rewrite Enter_threshold_run by done. cbn.
  rewrite threshold_value_fits by lia.
  split; [done|]. split; [done|]. split; [|done].
  intros Hfit. rewrite Z.mod_small by lia. apply shiftr_priority_field; lia.
Qed.

Lemma IsInIrqContext_run (s : Machine) :
  IRQ_IsInIrqContext s = (negb (Z.land (ICSR s) SCB_ICSR_VECTACTIVE_Msk =? 0), s).
Proof. reflexivity. Qed.

Lemma eval_IsIRQnBlocked (irqNum : Z) (s : Machine) :
  IsIRQnBlocked_assert irqNum = true ->
  eval (IRQ_IsIRQnBlocked irqNum) s
  = Some (PRIMASK s
          || eval (NVIC_IsIRQnDisabled irqNum) s
          || (has_BASEPRI && negb (BASEPRI s =? 0)
              && (Z.shiftr (BASEPRI s) BASEPRI_START_BIT <=? IPR s irqNum))
          || (negb (Z.shiftr (Z.land (ICSR s) SCB_ICSR_VECTACTIVE_Msk)
                      SCB_ICSR_VECTACTIVE_Pos =? 0)
              && (IPR s (to_int32 (to_uint32
                          (Z.shiftr (Z.land (ICSR s) SCB_ICSR_VECTACTIVE_Msk)
                             SCB_ICSR_VECTACTIVE_Pos - 16)))
                  <=? IPR s irqNum))).
Proof. intros H. unfold eval. by rewrite IsIRQnBlocked_run. Qed.

Lemma not_in_handler (s : Machine) :
  eval IRQ_IsInIrqContext s = false ->
  Z.shiftr (Z.land (ICSR s) SCB_ICSR_VECTACTIVE_Msk) SCB_ICSR_VECTACTIVE_Pos = 0.
Proof.
  unfold eval. rewrite IsInIrqContext_run. cbn [fst]. intros H.
  apply negb_false_iff, Z.eqb_eq in H. rewrite H. apply Z.shiftr_0_l.
Qed.

(** X9. Inside a threshold section entered from thread mode with PRIMASK
    clear, and with a configured level that fits the implemented priority
    bits, [IRQ_IsIRQnBlocked] reports an enabled interrupt line blocked
    exactly when its priority is numerically at least the configured level:
    a more urgent line can still preempt. *)
Theorem threshold_section_blocks_by_priority (irqNum : Z) (s : Machine) :
  has_BASEPRI = true ->
  1 <= __NVIC_PRIO_BITS <= 8 ->
  0 < basePriLevel s < 2 ^ __NVIC_PRIO_BITS ->
  0 <= irqNum ->
  IsIRQnBlocked_assert irqNum = true ->
  PRIMASK s = false ->
  mask_bit (NVIC_enable s) irqNum = true ->
  eval IRQ_IsInIrqContext s = false ->
  eval (IRQ_IsIRQnBlocked irqNum)
       (exec BASEPRI_EnterInterruptsDisabledByThresholdSection s)
  = Some (basePriLevel s <=? IPR s irqNum).
Proof.
  intros Hb Hbits Hlevel H0 Hassert Hp Hen Hthread.
  pose proof (assert_upper _ Hassert) as Hup.
  assert (2 ^ __NVIC_PRIO_BITS <= 2 ^ 8) as Hpow by (apply Z.pow_le_mono_r; lia).
  assert (0 < 2 ^ (8 - __NVIC_PRIO_BITS)) as Hk by (apply Z.pow_pos_nonneg; lia).
  change (2 ^ 8) with 256 in Hpow.
  rewrite eval_IsIRQnBlocked by done.
  rewrite eval_IsIRQnDisabled_valid by lia.
  unfold exec. rewrite Enter_threshold_run by done. cbn.
  rewrite threshold_value_fits by lia. rewrite Z.mod_small by lia.
  rewrite shiftr_priority_field by lia.
  rewrite Hp, Hen, Hb, (not_in_handler s Hthread). cbn.
  replace (basePriLevel s * 2 ^ (8 - __NVIC_PRIO_BITS) =? 0) with false
    by (symmetry; apply Z.eqb_neq; nia).
  cbn. by rewrite orb_false_r.
Qed.

Lemma eval_AreAllIRQnsDisabled (s : Machine) :
  eval IRQ_AreAllIRQnsDisabled s
  = PRIMASK s || (has_BASEPRI && threshold_masking_active s).
Proof. unfold eval. by rewrite AreAllIRQnsDisabled_run. Qed.

(** X10. After [PRIMASK_EnterCriticalSection] or [PRIMASK_DisableIrq],
    [IRQ_AreAllIRQnsDisabled] answers true and [IRQ_IsIRQnBlocked] answers
    true for every line that passes its [ASSERT], whatever the enable bits,
    the priorities, BASEPRI and the active handler are. *)
Theorem critical_section_blocks_every_line (irqNum : Z) (s : Machine) :
  IsIRQnBlocked_assert irqNum = true ->
  (eval IRQ_AreAllIRQnsDisabled (exec PRIMASK_EnterCriticalSection s) = true
   /\ eval (IRQ_IsIRQnBlocked irqNum) (exec PRIMASK_EnterCriticalSection s) = Some true)
  /\ (eval IRQ_AreAllIRQnsDisabled (exec PRIMASK_DisableIrq s) = true
      /\ eval (IRQ_IsIRQnBlocked irqNum) (exec PRIMASK_DisableIrq s) = Some true).
Proof.
  intros Hassert. rewrite !eval_AreAllIRQnsDisabled, !eval_IsIRQnBlocked by done.
  done.
Qed.

(** X11. [IRQ_AreAllIRQnsDisabled] answers true right after
    [BASEPRI_DisableIrqByThreshold]; called with PRIMASK clear, it answers
    false right after [BASEPRI_EnableIrqByThreshold].  Where BASEPRI is
    present this needs a configured level in [1, 7] that fits the implemented
    priority bits. *)
Theorem threshold_Disable_Enable_observed (s : Machine) :
  (has_BASEPRI = true ->
   1 <= __NVIC_PRIO_BITS <= 8
   /\ 0 < basePriLevel s <= 7 /\ basePriLevel s < 2 ^ __NVIC_PRIO_BITS) ->
  eval IRQ_AreAllIRQnsDisabled (exec BASEPRI_DisableIrqByThreshold s) = true
  /\ (PRIMASK s = false ->
      eval IRQ_AreAllIRQnsDisabled (exec BASEPRI_EnableIrqByThreshold s) = false).
Proof.
  intros Hcfg. rewrite !eval_AreAllIRQnsDisabled.
  unfold exec, BASEPRI_DisableIrqByThreshold, BASEPRI_EnableIrqByThreshold.
  destruct has_BASEPRI eqn:Hb.
  - destruct (Hcfg eq_refl) as (Hbits & Hlevel & Hfit).
    assert (2 ^ __NVIC_PRIO_BITS <= 2 ^ 8) as Hpow by (apply Z.pow_le_mono_r; lia).
    assert (0 < 2 ^ (8 - __NVIC_PRIO_BITS)) as Hk by (apply Z.pow_pos_nonneg; lia).
    pose proof (threshold_value_pos (basePriLevel s) Hbits Hlevel) as Hpos.
    pose proof (threshold_value_fits (basePriLevel s) Hbits ltac:(lia)) as Hfits.
    rewrite Z.mod_small in Hfits by lia.
    assert (threshold_value (basePriLevel s)
            = basePriLevel s * 2 ^ (8 - __NVIC_PRIO_BITS)) as Hval.
    { rewrite <- Hfits. symmetry. apply land_0xFF_id.
      unfold threshold_value, BASEPRI_START_BIT in *.
      rewrite (to_uint32_small (8 - __NVIC_PRIO_BITS)) in * by lia.
      rewrite Z.shiftl_mul_pow2 in * by lia.
      assert (2 ^ __NVIC_PRIO_BITS * 2 ^ (8 - __NVIC_PRIO_BITS) = 2 ^ 8) as Hprod
        by (rewrite <- Z.pow_add_r by lia; f_equal; lia).
      rewrite to_uint32_small by nia. nia. }
    unfold_primask. unfold threshold_masking_active. cbn. split.
    + rewrite Hfits, Hval. rewrite Z.leb_refl. apply orb_true_r.
    + intros ->. cbn. apply Z.leb_gt. change (Z.land 0 255) with 0. lia.
  - unfold_primask. cbn. done.
Qed.

(** X12. In thread mode, with PRIMASK clear and BASEPRI zero,
    [IRQ_IsIRQnBlocked] answers for every line that passes its [ASSERT]
    exactly what [NVIC_IsIRQnDisabled] answers: with no masking in force a
    line is blocked if and only if it is disabled. *)
Theorem unmasked_blocked_iff_disabled (irqNum : Z) (s : Machine) :
  IsIRQnBlocked_assert irqNum = true ->
  PRIMASK s = false ->
  BASEPRI s = 0 ->
  eval IRQ_IsInIrqContext s = false ->
  eval (IRQ_IsIRQnBlocked irqNum) s = Some (eval (NVIC_IsIRQnDisabled irqNum) s).
Proof.
  intros Hassert Hp Hb Hthread. rewrite eval_IsIRQnBlocked by done.
  rewrite Hp, Hb, (not_in_handler s Hthread). cbn.
  by rewrite andb_false_r, !orb_false_r.
Qed.

(** X13. [IRQ_IsIRQnBlocked] never answers false for a line number that is
    not a peripheral interrupt: a negative number that passes the [ASSERT]
    (a core exception) is always reported blocked, because
    [NVIC_IsIRQnDisabled] calls it disabled, and a number from [0xF0] on
    fails the [ASSERT], so the call does not return. *)
Theorem IsIRQnBlocked_outside_interrupt_range (irqNum : Z) (s : Machine) :
  - 2 ^ 15 <= irqNum < 0 \/ 0xF0 <= irqNum < 2 ^ 15 ->
  eval (IRQ_IsIRQnBlocked irqNum) s <> Some false
  /\ (irqNum < 0 -> IsIRQnBlocked_assert irqNum = true ->
      eval (IRQ_IsIRQnBlocked irqNum) s = Some true)
  /\ (0xF0 <= irqNum -> eval (IRQ_IsIRQnBlocked irqNum) s = None).
Proof.
  intros Hrange.
  assert (0xF0 <= irqNum -> eval (IRQ_IsIRQnBlocked irqNum) s = None) as Hhigh.
  { intros Hh. unfold eval, IRQ_IsIRQnBlocked.
    replace (IsIRQnBlocked_assert irqNum) with false; [done|].
    symmetry. unfold IsIRQnBlocked_assert.
    destruct has_BASEPRI; apply andb_false_iff; right; apply Z.ltb_ge; lia. }
  assert (irqNum < 0 -> IsIRQnBlocked_assert irqNum = true ->
          eval (IRQ_IsIRQnBlocked irqNum) s = Some true) as Hneg.
  { intros Hn Hassert. rewrite eval_IsIRQnBlocked by done.
    unfold eval at 1, NVIC_IsIRQnDisabled.
    rewrite IS_INTERRUPT_NUM_invalid by lia. cbn.
    by rewrite orb_true_r. }
  split; [|done].
  destruct Hrange as [Hn|Hh].
  - destruct (IsIRQnBlocked_assert irqNum) eqn:Hassert.
    + rewrite Hneg by (lia || done). discriminate.
    + unfold eval, IRQ_IsIRQnBlocked. rewrite Hassert. discriminate.
  - rewrite Hhigh by lia. discriminate.
Qed.

(** X14. The four queries [NVIC_IsIRQnDisabled], [IRQ_IsInIrqContext],
    [IRQ_IsIRQnBlocked] and [IRQ_AreAllIRQnsDisabled] write no register and
    issue no barrier: the machine after the call, its log included, is the
    machine before, for every argument. *)
Theorem inspector_queries_read_only (irqNum : Z) (s : Machine) :
  exec (NVIC_IsIRQnDisabled irqNum) s = s
  /\ exec IRQ_IsInIrqContext s = s
  /\ exec (IRQ_IsIRQnBlocked irqNum) s = s
  /\ exec IRQ_AreAllIRQnsDisabled s = s.
Proof.
  assert (forall n, exec (NVIC_IsIRQnDisabled n) s = s) as Hdis.
  { intros n. unfold exec, NVIC_IsIRQnDisabled. by destruct (IS_INTERRUPT_NUM n). }
  split; [apply Hdis|]. split; [done|]. split.
  - destruct (IsIRQnBlocked_assert irqNum) eqn:Hassert.
    + unfold exec. by rewrite IsIRQnBlocked_run.
    + unfold exec, IRQ_IsIRQnBlocked. by rewrite Hassert.
  - unfold exec. by rewrite AreAllIRQnsDisabled_run.
Qed.

(** X15. With BASEPRI present, a sequence of calls of
    [BASEPRI_SetPriorityLevelThreshold] answers each request by whether it
    lies in [1, 7], and [BASEPRI_GetPriorityLevelThreshold] then returns the
    last accepted request, or the level configured before when none was
    accepted. *)
Theorem set_thresholds_last_accepted (levels : list Z) (s : Machine) :
  has_BASEPRI = true ->
  Forall (fun l => 0 <= l < 256) levels ->
  eval (set_thresholds levels) s = map (fun l => (0 <? l) && (l <=? 7)) levels
  /\ eval BASEPRI_GetPriorityLevelThreshold (exec (set_thresholds levels) s)
     = last_accepted (fun l => (0 <? l) && (l <=? 7)) (basePriLevel s) levels.
Proof.
  intros Hb Hall. revert s.
  induction levels as [|level rest IH]; intros s; [done|].
  apply Forall_cons in Hall as [Hlevel Hall]. specialize (IH Hall).
  cbn [set_thresholds map last_accepted]. unfold eval, exec in *.
  cbv beta iota delta [mbind M_bind mret M_ret].
  rewrite SetPriorityLevelThreshold_run, Hb. cbn [andb].
  assert (IS_INT_LVL_VALID level = (0 <? level) && (level <=? 7)) as ->.
  { unfold IS_INT_LVL_VALID, INTERRUPT_HIGHEST_PRIORITY, INTERRUPT_LOWEST_PRIORITY.
    rewrite Hb, to_uint32_small by lia. done. }
  destruct ((0 <? level) && (level <=? 7)) eqn:Hv.
  - specialize (IH (set_basePriLevel (to_int8 level) s)).
    destruct (set_thresholds rest _) as [oks s1]. cbn [fst snd] in *.
    destruct IH as [-> ->]. split; [done|]. cbn.
    apply andb_true_iff in Hv as [H1 H2]. apply Z.ltb_lt in H1. apply Z.leb_le in H2.
    by rewrite to_int8_small by lia.
  - specialize (IH s). destruct (set_thresholds rest s) as [oks s1].
    cbn [fst snd] in *. by destruct IH as [-> ->].
Qed.

(** ** The vector table *)

Lemma IS_IRQn_range (irqNum : Z) :
  IS_IRQn irqNum = true <-> -16 <= to_int16 irqNum < 0xF0.
Proof.
  unfold IS_IRQn, IS_INTERRUPT_NUM, IS_EXCEPTION_NUM.
  rewrite orb_true_iff, !andb_true_iff, !Z.leb_le, !Z.ltb_lt. lia.
Qed.

Lemma IS_IRQn_valid (irqNum : Z) : -16 <= irqNum < 0xF0 -> IS_IRQn irqNum = true.
Proof. intros H. apply IS_IRQn_range. rewrite to_int16_small; lia. Qed.

Lemma IS_IRQn_invalid (irqNum : Z) :
  - 2 ^ 15 <= irqNum < -16 \/ 0xF0 <= irqNum < 2 ^ 15 -> IS_IRQn irqNum = false.
Proof.
  intros H. destruct (IS_IRQn irqNum) eqn:E; [|done].
  apply IS_IRQn_range in E. rewrite to_int16_small in E; lia.
Qed.

(** X16. For every line that [IS_IRQn] accepts, core exceptions included,
    [NVIC_GetIRQnHandler] after [NVIC_SetIRQnHandler] returns the handler
    that was stored; the handler of every other line is as before, and the
    table stays where it is. *)
Theorem handler_set_then_get (irqNum other handler : Z) (v : Vectors) :
  -16 <= irqNum < 0xF0 ->
  -16 <= other < 0xF0 ->
  other <> irqNum ->
  0 <= handler < 2 ^ 32 ->
  NVIC_GetIRQnHandler irqNum (NVIC_SetIRQnHandler irqNum handler v) = handler
  /\ NVIC_GetIRQnHandler other (NVIC_SetIRQnHandler irqNum handler v)
     = NVIC_GetIRQnHandler other v
  /\ VTOR (NVIC_SetIRQnHandler irqNum handler v) = VTOR v.
Proof.
  intros Hirq Hother Hne Hh.
  unfold NVIC_GetIRQnHandler, NVIC_SetIRQnHandler.
  rewrite !IS_IRQn_valid by done. unfold vector_address. cbn.
  rewrite !to_int16_small by lia. rewrite Z.eqb_refl.
  rewrite to_uint32_small by done.
  split; [done|]. split; [|done].
  replace (VTOR v + 4 * (other + 16) =? VTOR v + 4 * (irqNum + 16)) with false; [done|].
  symmetry. apply Z.eqb_neq. lia.
Qed.

(** X17. [NVIC_SetIRQnHandler] writes no word outside the 256 entries of
    the vector table, whatever line number it is given; for a number that is
    neither an interrupt nor a core exception it writes nothing at all and
    [NVIC_GetIRQnHandler] returns [NULL]. *)
Theorem handler_accessors_stay_in_table (irqNum handler a : Z) (v : Vectors) :
  (a < VTOR v \/ VTOR v + 4 * 256 <= a ->
   word (NVIC_SetIRQnHandler irqNum handler v) a = word v a)
  /\ (- 2 ^ 15 <= irqNum < -16 \/ 0xF0 <= irqNum < 2 ^ 15 ->
      NVIC_SetIRQnHandler irqNum handler v = v
      /\ NVIC_GetIRQnHandler irqNum v = 0).
Proof.
  split.
  - intros Ha. unfold NVIC_SetIRQnHandler.
    destruct (IS_IRQn irqNum) eqn:E; [|done].
    apply IS_IRQn_range in E. unfold vector_address. cbn.
    replace (a =? VTOR v + 4 * (to_int16 irqNum + 16)) with false; [done|].
    symmetry. apply Z.eqb_neq. lia.
  - intros Hinv. unfold NVIC_SetIRQnHandler, NVIC_GetIRQnHandler.
    by rewrite IS_IRQn_invalid.
Qed.

End Target.

(** * The properties on concrete machines *)

(** An STM32F4: a Cortex-M4 with four priority bits; [MemoryManagement_IRQn]
    is -12, [SVCall_IRQn] is -5, and [VECTACTIVE] is the low nine bits of
    [ICSR]. *)

(** ** C1 *)

(** C1 on a machine with lines A and C enabled and [d] naming C: Enter
    returns the two enabled lines as the snapshot, and
    [NVIC_ExitSpecificInterruptDisabledSection(saved)], called next, writes
    the snapshot to the clear-enable register, so the enable register ends
    with no line enabled instead of the two that were; handing the same
    snapshot to [NVIC_EnableSpecificInterrupts] restores them. *)
Lemma C1_enter_exit_does_not_restore :
  let s := machine false 0 mask_AC 3 in
  let saved := eval (NVIC_EnterSpecificInterruptDisabledSection mask_C) s in
  let s1 := exec (NVIC_EnterSpecificInterruptDisabledSection mask_C) s in
  let s2 := exec (NVIC_ExitSpecificInterruptDisabledSection saved) s1 in
  saved = NVIC_enable s
  /\ NVIC_enable s = mask_AC
  /\ NVIC_enable s2 = zero_mask
  /\ NVIC_enable s2 <> NVIC_enable s
  /\ NVIC_enable (exec (NVIC_EnableSpecificInterrupts saved) s1) = NVIC_enable s.
Proof. vm_compute. repeat split; discriminate. Qed.

(** ** C2 *)

(** C2, as stated, fails.  With PRIMASK clear, the configured threshold 3
    and BASEPRI holding [3 << 4], [IRQ_AreAllIRQnsDisabled] answers true,
    and an enabled line of priority 1, more urgent than the threshold, is
    not blocked. *)
Lemma C2_all_disabled_not_blocked_counterexample :
  let s := machine false 0x30 all_enabled 3 in
  eval (IRQ_AreAllIRQnsDisabled 4 4) s = true
  /\ eval (IRQ_IsIRQnBlocked 4 4 (-12) (-5) 0x1FF 0 line_A) s = Some false.
Proof. vm_compute. split; reflexivity. Qed.

Lemma C2_blocked_when_all_disabled_witness :
  let s := machine true 0 all_enabled 3 in
  0 <= line_A
  /\ IsIRQnBlocked_assert 4 (-12) (-5) line_A = true
  /\ 1 <= 4 <= 8
  /\ 0 < basePriLevel s <= INTERRUPT_LOWEST_PRIORITY 4
  /\ eval (IRQ_AreAllIRQnsDisabled 4 4) s = true
  /\ eval (IRQ_IsIRQnBlocked 4 4 (-12) (-5) 0x1FF 0 line_A) s = Some true.
Proof.
  cbv zeta.
  assert (0 <= line_A) as H0 by (vm_compute; discriminate).
  assert (1 <= 4 <= 8) as Hbits by lia.
  assert (0 < basePriLevel (machine true 0 all_enabled 3) <= INTERRUPT_LOWEST_PRIORITY 4)
    as Hlevel by (vm_compute; split; [reflexivity | discriminate]).
  split; [exact H0|]. split; [reflexivity|]. split; [exact Hbits|].
  split; [exact Hlevel|]. split; [reflexivity|].
  exact (proj1 (C2_blocked_when_all_disabled 4 4 (-12) (-5) 0x1FF 0 line_A
                  (machine true 0 all_enabled 3) H0 eq_refl Hbits (fun _ => Hlevel) eq_refl)
               eq_refl).
Defined.

(** ** C3 *)

(** C3, as stated, fails.  Line A is set in the mask to begin with; setting
    it and clearing it leaves it clear. *)
Lemma C3_clear_after_set_counterexample :
  wf_mask mask_AB = true
  /\ IS_INTERRUPT_NUM line_A = true
  /\ NVIC_ClearSpecificInterruptInAMask line_A
       (NVIC_SetSpecificInterruptInAMask line_A mask_AB)
     = NVIC_SetSpecificInterruptInAMask line_B zero_mask
  /\ NVIC_ClearSpecificInterruptInAMask line_A
       (NVIC_SetSpecificInterruptInAMask line_A mask_AB)
     <> mask_AB.
Proof. vm_compute. repeat split; discriminate. Qed.

Lemma C3_clear_after_set_witness :
  wf_mask mask_AB = true
  /\ 0 <= line_C < 0xF0
  /\ mask_bit mask_AB line_C = false
  /\ NVIC_ClearSpecificInterruptInAMask line_C
       (NVIC_SetSpecificInterruptInAMask line_C mask_AB)
     = mask_AB.
Proof.
  assert (0 <= line_C < 0xF0) as Hc by (vm_compute; split; [discriminate | reflexivity]).
  split; [reflexivity|]. split; [exact Hc|]. split; [reflexivity|].
  exact (proj2 (proj2 (proj1 (C3_clear_after_set line_C mask_AB eq_refl) Hc)) eq_refl).
Defined.

(** ** C4 *)

(** Two sections inside a third, the threshold moved from 3 to 6 and to 2
    inside them, starting with BASEPRI at [5 << 4]. *)
Lemma C4_nested_sections_restore_witness :
  let p := NSection
             (NSetThreshold 6
                (NSection (NSetThreshold 2 NDone) (NSection NDone NDone)))
             NDone in
  let s := machine false 0x50 all_enabled 3 in
  0 <= BASEPRI s < 256
  /\ depth p = 2%nat
  /\ PRIMASK (exec (run_critical 4 p) s) = false
  /\ BASEPRI (exec (run_threshold 4 4 p) s) = 0x50
  /\ basePriLevel (exec (run_threshold 4 4 p) s) = 2.
Proof.
  cbv zeta.
  assert (0 <= BASEPRI (machine false 0x50 all_enabled 3) < 256) as Hrange
    by (vm_compute; split; [discriminate | reflexivity]).
  split; [exact Hrange|]. split; [reflexivity|].
  split; [|split; [|reflexivity]].
  - exact (proj1 (proj1 (C4_nested_sections_restore 4 4 _ _ Hrange))).
  - exact (proj2 (proj2 (C4_nested_sections_restore 4 4 _ _ Hrange))).
Defined.

(** ** C5 *)

(** Line C is enabled at priority 1 and BASEPRI holds [1 << 4]: the line is
    blocked at the third step. *)
Lemma C5_IsIRQnBlocked_order_witness :
  let s := machine false 0x10 mask_AC 3 in
  0 <= line_C
  /\ IsIRQnBlocked_assert 4 (-12) (-5) line_C = true
  /\ IRQ_IsIRQnBlocked 4 4 (-12) (-5) 0x1FF 0 line_C s = (Some true, s).
Proof.
  cbv zeta.
  assert (0 <= line_C) as H0 by (vm_compute; discriminate).
  split; [exact H0|]. split; [reflexivity|].
  exact (C5_IsIRQnBlocked_order 4 4 (-12) (-5) 0x1FF 0 line_C
           (machine false 0x10 mask_AC 3) H0 eq_refl).
Defined.

(** ** C6 *)

(** On the Cortex-M4, 5 is accepted; of the requests 0, 5, 9 and 200 only 5
    is, and the getter returns it. *)
Lemma C6_threshold_setter_witness :
  let s := machine false 0 all_enabled 3 in
  0 <= 5 < 256
  /\ Forall (fun l => 0 <= l < 256) [0; 5; 9; 200]
  /\ (eval (BASEPRI_SetPriorityLevelThreshold 4 5) s = true
      <-> has_BASEPRI 4 = true /\ 0 < 5 <= INTERRUPT_LOWEST_PRIORITY 4)
  /\ eval (set_thresholds 4 [0; 5; 9; 200]) s = [false; true; false; false]
  /\ eval BASEPRI_GetPriorityLevelThreshold (exec (set_thresholds 4 [0; 5; 9; 200]) s) = 5.
Proof.
  cbv zeta.
  assert (0 <= 5 < 256) as H5 by lia.
  assert (Forall (fun l => 0 <= l < 256) [0; 5; 9; 200]) as Hall
    by (repeat constructor; lia).
  split; [exact H5|]. split; [exact Hall|].
  split; [|split; reflexivity].
  exact (proj1 (C6_threshold_setter 4 5 [0; 5; 9; 200] (machine false 0 all_enabled 3)
                  H5 Hall)).
Defined.

(** ** C8 *)

(** C8, as stated, fails for the threshold pair.  A threshold section is
    entered at level 3 and the configured level is then raised to 5: BASEPRI
    holds [3 << 4], an enabled line of priority 4 that was not blocked before
    the section is blocked now, so masking is active, and
    [BASEPRI_TriggerPendingInterruptsByThreshold] compares BASEPRI with
    [5 << 4] and writes nothing. *)
Lemma C8_masked_below_threshold_counterexample :
  let s0 := Build_Machine false 0 all_enabled 0 (fun _ => 4) 3 [] in
  let s1 := exec (BASEPRI_EnterInterruptsDisabledByThresholdSection 4 4) s0 in
  let s2 := exec (BASEPRI_SetPriorityLevelThreshold 4 5) s1 in
  eval (BASEPRI_SetPriorityLevelThreshold 4 5) s1 = true
  /\ BASEPRI s2 = 0x30
  /\ eval (IRQ_IsIRQnBlocked 4 4 (-12) (-5) 0x1FF 0 line_A) s0 = Some false
  /\ eval (IRQ_IsIRQnBlocked 4 4 (-12) (-5) 0x1FF 0 line_A) s2 = Some true
  /\ trace (exec (BASEPRI_TriggerPendingInterruptsByThreshold 4 4) s2) = trace s2
  /\ BASEPRI (exec (BASEPRI_TriggerPendingInterruptsByThreshold 4 4) s2) = 0x30.
Proof. vm_compute. repeat split; reflexivity. Qed.

Lemma C8_trigger_pending_witness :
  let s := machine true 0x30 all_enabled 3 in
  0 <= BASEPRI s < 256
  /\ PRIMASK s = true
  /\ threshold_masking_active 4 s = true
  /\ trace (exec PRIMASK_TriggerPendingInterrupts s) = [EvCPSIE; EvISB; EvCPSID]
  /\ trace (exec (BASEPRI_TriggerPendingInterruptsByThreshold 4 4) s)
     = [EvBASEPRI 0; EvISB; EvBASEPRI 0x30].
Proof.
  cbv zeta.
  assert (0 <= BASEPRI (machine true 0x30 all_enabled 3) < 256) as Hrange
    by (vm_compute; split; [discriminate | reflexivity]).
  split; [exact Hrange|]. split; [reflexivity|]. split; [reflexivity|].
  pose proof (C8_trigger_pending 4 4 (machine true 0x30 all_enabled 3) Hrange)
    as (Hp & _ & Hb & _).
  split.
  - exact (proj1 (proj2 (Hp eq_refl))).
  - exact (proj1 (proj2 (Hb eq_refl eq_refl))).
Defined.

(** ** C10 *)

(** [SVCall_IRQn], -5, is a line for [IS_IRQn]; the mask operations ignore
    it and [NVIC_IsIRQnDisabled] calls it disabled. *)
Lemma C10_exception_numbers_rejected_witness :
  let s := machine false 0 all_enabled 3 in
  (- 2 ^ 15 <= -5 < 0 \/ 0xF0 <= -5 < 2 ^ 15)
  /\ NVIC_SetSpecificInterruptInAMask (-5) mask_AB = mask_AB
  /\ NVIC_ClearSpecificInterruptInAMask (-5) mask_AB = mask_AB
  /\ NVIC_IsIRQnDisabled (-5) s = (true, s)
  /\ IS_IRQn (-5) = true.
Proof.
  cbv zeta.
  assert (- 2 ^ 15 <= -5 < 0 \/ 0xF0 <= -5 < 2 ^ 15) as H by (left; lia).
  split; [exact H|].
  pose proof (C10_exception_numbers_rejected (-5) mask_AB
                (machine false 0 all_enabled 3) H) as (HS & HC & HD & HI).
  split; [exact HS|]. split; [exact HC|]. split; [exact HD|].
  apply HI. lia.
Defined.

(** ** C7 *)

(** C7 on the scenario of section 8, with the loop counter of
    [NVIC_TriggerSpecificPendingInterrupts] holding 1 when the loop starts:
    the first word of the local mask keeps the raw snapshot of the enable
    register, so line A is not pulsed and every enabled line of the first
    word, C among them, is written to the set-enable and then to the
    clear-enable register and ends disabled.  With the counter at 8 nothing
    is pulsed, and at 0 lines A and B are pulsed and C is left alone. *)
Lemma C7_trigger_uninitialised_counter :
  let s1 := exec (NVIC_DisableSpecificInterrupts mask_AB) (machine false 0 all_enabled 3) in
  let raw := Build_NVIC_Mask [0xFFFFFFFE; 1; 0; 0; 0; 0; 0; 0] in
  let s2 := exec (NVIC_TriggerSpecificPendingInterrupts 1 mask_ABC) s1 in
  (mask_bit (NVIC_enable s1) line_A = false
   /\ mask_bit (NVIC_enable s1) line_B = false
   /\ mask_bit (NVIC_enable s1) line_C = true)
  /\ (trace s2 = trace s1 ++ [EvCPSID; EvCPSIE; EvISER raw; EvISB; EvICER raw]
      /\ mask_bit raw line_A = false
      /\ mask_bit raw line_C = true
      /\ mask_bit (NVIC_enable s2) line_C = false
      /\ NVIC_enable s2
         = Build_NVIC_Mask [0; 0xFFFFFFFE; 0xFFFFFFFF; 0xFFFFFFFF; 0xFFFFFFFF;
                            0xFFFFFFFF; 0xFFFFFFFF; 0xFFFFFFFF])
  /\ trace (exec (NVIC_TriggerSpecificPendingInterrupts 8 mask_ABC) s1)
     = trace s1 ++ [EvCPSID; EvCPSIE]
  /\ (trace (exec (NVIC_TriggerSpecificPendingInterrupts 0 mask_ABC) s1)
      = trace s1 ++ [EvCPSID; EvCPSIE; EvISER mask_AB; EvISB; EvICER mask_AB]
      /\ NVIC_enable (exec (NVIC_TriggerSpecificPendingInterrupts 0 mask_ABC) s1)
         = NVIC_enable s1).
Proof. vm_compute. repeat split; reflexivity. Qed.

(** ** C9 *)

(** C9 after [NVIC_EnableSpecificInterrupts(mask)] for the mask of lines A
    and B, with the loop counter of [NVIC_IsNvicIserMaskDisabled] holding 8
    (or 2) when the loop starts: no word (or no word of the mask) is looked
    at and the answer is true, although both lines are enabled.  With the
    counter at 0 the answer is false. *)
Lemma C9_scan_uninitialised_counter :
  let s := exec (NVIC_EnableSpecificInterrupts mask_AB) (machine false 0 zero_mask 3) in
  mask_AB <> zero_mask
  /\ NVIC_enable s = mask_AB
  /\ eval (NVIC_IsNvicIserMaskDisabled 8 mask_AB) s = true
  /\ eval (NVIC_IsNvicIserMaskDisabled 2 mask_AB) s = true
  /\ eval (NVIC_IsNvicIserMaskDisabled 0 mask_AB) s = false.
Proof. vm_compute. repeat split; (reflexivity || discriminate). Qed.

(** * The further properties on concrete machines *)

Lemma Set_Clear_one_line_witness :
  wf_mask mask_AB = true
  /\ 0 <= 37 < 0xF0
  /\ wf_mask (NVIC_SetSpecificInterruptInAMask 37 mask_AB) = true
  /\ wf_mask (NVIC_ClearSpecificInterruptInAMask 37 mask_AB) = true.
Proof.
  assert (0 <= 37 < 0xF0) as H by lia.
  pose proof (Set_Clear_one_line 37 mask_AB eq_refl H) as [[HS _] [HC _]].
  split; [reflexivity|]. split; [exact H|]. split; [exact HS | exact HC].
Defined.

Lemma mask_operations_compose_witness :
  wf_mask mask_C = true
  /\ 0 <= 0 < 0xF0
  /\ 0 <= 239 < 0xF0
  /\ NVIC_SetSpecificInterruptInAMask 0 (NVIC_SetSpecificInterruptInAMask 239 mask_C)
     = NVIC_SetSpecificInterruptInAMask 239 (NVIC_SetSpecificInterruptInAMask 0 mask_C).
Proof.
  assert (0 <= 0 < 0xF0) as Ha by lia.
  assert (0 <= 239 < 0xF0) as Hb by lia.
  split; [reflexivity|]. split; [exact Ha|]. split; [exact Hb|].
  exact (proj1 (mask_operations_compose 0 239 mask_C eq_refl Ha Hb)).
Defined.

Lemma Enable_Disable_specific_lines_witness :
  let s := machine true 0x30 mask_AC 3 in
  wf_mask (NVIC_enable s) = true
  /\ wf_mask mask_AB = true
  /\ wf_mask (NVIC_enable (exec (NVIC_DisableSpecificInterrupts mask_AB) s)) = true
  /\ PRIMASK (exec (NVIC_EnableSpecificInterrupts mask_AB) s) = PRIMASK s.
Proof.
  cbv zeta.
  pose proof (Enable_Disable_specific_lines mask_AB (machine true 0x30 mask_AC 3)
                eq_refl eq_refl) as (_ & _ & Hd & _ & _ & He & _).
  split; [reflexivity|]. split; [reflexivity|]. split; [exact Hd | exact He].
Defined.

Lemma line_query_after_mask_write_witness :
  let s := machine false 0 mask_A 3 in
  wf_mask (NVIC_enable s) = true
  /\ 0 <= 100 < 0xF0
  /\ 0 <= line_A < 0xF0
  /\ line_A <> 100
  /\ eval (NVIC_IsIRQnDisabled 100)
          (exec (NVIC_EnableSpecificInterrupts
                   (NVIC_SetSpecificInterruptInAMask 100 zero_mask)) s) = false.
Proof.
  cbv zeta.
  assert (0 <= 100 < 0xF0) as H1 by lia.
  assert (0 <= line_A < 0xF0) as H2 by (unfold line_A; lia).
  assert (line_A <> 100) as H3 by (unfold line_A; lia).
  split; [reflexivity|]. split; [exact H1|]. split; [exact H2|]. split; [exact H3|].
  exact (proj1 (line_query_after_mask_write 100 line_A (machine false 0 mask_A 3)
                  eq_refl H1 H2 H3)).
Defined.

Lemma GetNvicIserMask_save_restore_witness :
  let s := machine false 0 all_enabled 3 in
  wf_mask (NVIC_enable s) = true
  /\ wf_mask mask_AB = true
  /\ 0 <= line_B < 0xF0
  /\ NVIC_enable
       (exec (NVIC_EnableSpecificInterrupts (eval NVIC_GetNvicIserMask s))
          (exec (NVIC_DisableSpecificInterrupts mask_AB)
             (exec NVIC_GetNvicIserMask s)))
     = NVIC_enable s.
Proof.
  cbv zeta.
  assert (0 <= line_B < 0xF0) as H by (unfold line_B; lia).
  pose proof (GetNvicIserMask_save_restore mask_AB line_B (machine false 0 all_enabled 3)
                eq_refl eq_refl H) as (_ & _ & _ & Hr & _).
  split; [reflexivity|]. split; [reflexivity|]. split; [exact H | exact Hr].
Defined.

(** Level 5 with the four priority bits of the STM32F4 is written as
    [0x50]; with two priority bits it would be written as [0x40], level 1. *)
Lemma threshold_Enter_encodes_level_witness :
  let s := machine false 0 all_enabled 5 in
  has_BASEPRI 4 = true
  /\ 1 <= 4 <= 8
  /\ 0 <= basePriLevel s < 128
  /\ BASEPRI (exec (BASEPRI_EnterInterruptsDisabledByThresholdSection 4 4) s) = 0x50
  /\ BASEPRI (exec (BASEPRI_EnterInterruptsDisabledByThresholdSection 4 2) s) = 0x40.
Proof.
  cbv zeta.
  assert (1 <= 4 <= 8) as Hbits by lia.
  assert (0 <= basePriLevel (machine false 0 all_enabled 5) < 128) as Hlevel
    by (cbn; lia).
  split; [reflexivity|]. split; [exact Hbits|]. split; [exact Hlevel|].
  split; [|reflexivity].
  exact (proj1 (proj2 (threshold_Enter_encodes_level 4 4 (machine false 0 all_enabled 5)
                         eq_refl Hbits Hlevel))).
Defined.

(** Threshold 5: a line of priority 6 is blocked in the section. *)
Lemma threshold_section_blocks_by_priority_witness :
  let s := Build_Machine false 0 all_enabled 0 (fun _ => 6) 5 [] in
  has_BASEPRI 4 = true
  /\ 1 <= 4 <= 8
  /\ 0 < basePriLevel s < 2 ^ 4
  /\ 0 <= line_B
  /\ IsIRQnBlocked_assert 4 (-12) (-5) line_B = true
  /\ PRIMASK s = false
  /\ mask_bit (NVIC_enable s) line_B = true
  /\ eval (IRQ_IsInIrqContext 0x1FF) s = false
  /\ eval (IRQ_IsIRQnBlocked 4 4 (-12) (-5) 0x1FF 0 line_B)
          (exec (BASEPRI_EnterInterruptsDisabledByThresholdSection 4 4) s)
     = Some true.
Proof.
  cbv zeta.
  assert (1 <= 4 <= 8) as Hbits by lia.
  assert (0 < basePriLevel (Build_Machine false 0 all_enabled 0 (fun _ => 6) 5 [])
          < 2 ^ 4) as Hlevel by (cbn; lia).
  assert (0 <= line_B) as H0 by (unfold line_B; lia).
  split; [reflexivity|]. split; [exact Hbits|]. split; [exact Hlevel|].
  split; [exact H0|]. split; [reflexivity|]. split; [reflexivity|].
  split; [reflexivity|]. split; [reflexivity|].
  exact (threshold_section_blocks_by_priority 4 4 (-12) (-5) 0x1FF 0 line_B
           (Build_Machine false 0 all_enabled 0 (fun _ => 6) 5 [])
           eq_refl Hbits Hlevel H0 eq_refl eq_refl eq_refl eq_refl).
Defined.

Lemma critical_section_blocks_every_line_witness :
  let s := machine false 0 all_enabled 3 in
  IsIRQnBlocked_assert 4 (-12) (-5) (-1) = true
  /\ eval (IRQ_IsIRQnBlocked 4 4 (-12) (-5) 0x1FF 0 (-1))
          (exec PRIMASK_EnterCriticalSection s) = Some true.
Proof.
  cbv zeta. split; [reflexivity|].
  exact (proj2 (proj1 (critical_section_blocks_every_line 4 4 (-12) (-5) 0x1FF 0 (-1)
                         (machine false 0 all_enabled 3) eq_refl))).
Defined.

Lemma threshold_Disable_Enable_observed_witness :
  let s := machine false 0 all_enabled 3 in
  (1 <= 4 <= 8 /\ 0 < basePriLevel s <= 7 /\ basePriLevel s < 2 ^ 4)
  /\ eval (IRQ_AreAllIRQnsDisabled 4 4) (exec (BASEPRI_DisableIrqByThreshold 4 4) s)
     = true
  /\ eval (IRQ_AreAllIRQnsDisabled 4 4) (exec (BASEPRI_EnableIrqByThreshold 4) s)
     = false.
Proof.
  cbv zeta.
  assert (1 <= 4 <= 8 /\ 0 < basePriLevel (machine false 0 all_enabled 3) <= 7
          /\ basePriLevel (machine false 0 all_enabled 3) < 2 ^ 4) as Hcfg
    by (cbn; lia).
  split; [exact Hcfg|].
  pose proof (threshold_Disable_Enable_observed 4 4 (machine false 0 all_enabled 3)
                (fun _ => Hcfg)) as [Hd He].
  split; [exact Hd | exact (He eq_refl)].
Defined.

Lemma unmasked_blocked_iff_disabled_witness :
  let s := machine false 0 mask_A 3 in
  IsIRQnBlocked_assert 4 (-12) (-5) line_C = true
  /\ PRIMASK s = false
  /\ BASEPRI s = 0
  /\ eval (IRQ_IsInIrqContext 0x1FF) s = false
  /\ eval (IRQ_IsIRQnBlocked 4 4 (-12) (-5) 0x1FF 0 line_C) s
     = Some (eval (NVIC_IsIRQnDisabled line_C) s).
Proof.
  cbv zeta. split; [reflexivity|]. split; [reflexivity|]. split; [reflexivity|].
  split; [reflexivity|].
  exact (unmasked_blocked_iff_disabled 4 4 (-12) (-5) 0x1FF 0 line_C
           (machine false 0 mask_A 3) eq_refl eq_refl eq_refl eq_refl).
Defined.

(** [SysTick_IRQn], -1, is reported blocked on a machine with nothing
    masked. *)
Lemma IsIRQnBlocked_outside_interrupt_range_witness :
  let s := machine false 0 all_enabled 3 in
  (- 2 ^ 15 <= -1 < 0 \/ 0xF0 <= -1 < 2 ^ 15)
  /\ IsIRQnBlocked_assert 4 (-12) (-5) (-1) = true
  /\ eval (IRQ_IsIRQnBlocked 4 4 (-12) (-5) 0x1FF 0 (-1)) s = Some true.
Proof.
  cbv zeta.
  assert (- 2 ^ 15 <= -1 < 0 \/ 0xF0 <= -1 < 2 ^ 15) as H by (left; lia).
  split; [exact H|]. split; [reflexivity|].
  refine (proj1 (proj2 (IsIRQnBlocked_outside_interrupt_range 4 4 (-12) (-5) 0x1FF 0 (-1)
                          (machine false 0 all_enabled 3) H)) _ eq_refl).
  lia.
Defined.

Lemma set_thresholds_last_accepted_witness :
  let s := machine false 0 all_enabled 3 in
  has_BASEPRI 4 = true
  /\ Forall (fun l => 0 <= l < 256) [7; 0; 2; 8]
  /\ eval (set_thresholds 4 [7; 0; 2; 8]) s = [true; false; true; false]
  /\ eval BASEPRI_GetPriorityLevelThreshold (exec (set_thresholds 4 [7; 0; 2; 8]) s) = 2.
Proof.
  cbv zeta.
  assert (Forall (fun l => 0 <= l < 256) [7; 0; 2; 8]) as Hall
    by (repeat constructor; lia).
  split; [reflexivity|]. split; [exact Hall|].
  exact (set_thresholds_last_accepted 4 [7; 0; 2; 8] (machine false 0 all_enabled 3)
           eq_refl Hall).
Defined.

(** The [HardFault] entry, line -13, and the entry of interrupt 5 in a table
    at [0x08000000]. *)
Lemma handler_set_then_get_witness :
  let v := Build_Vectors 0x08000000 (fun _ => 0) in
  -16 <= -13 < 0xF0
  /\ -16 <= 5 < 0xF0
  /\ 5 <> -13
  /\ 0 <= 0x08001235 < 2 ^ 32
  /\ NVIC_GetIRQnHandler (-13) (NVIC_SetIRQnHandler (-13) 0x08001235 v) = 0x08001235
  /\ NVIC_GetIRQnHandler 5 (NVIC_SetIRQnHandler (-13) 0x08001235 v)
     = NVIC_GetIRQnHandler 5 v.
Proof.
  cbv zeta.
  assert (-16 <= -13 < 0xF0) as H1 by lia.
  assert (-16 <= 5 < 0xF0) as H2 by lia.
  assert (5 <> -13) as H3 by lia.
  assert (0 <= 0x08001235 < 2 ^ 32) as H4 by lia.
  pose proof (handler_set_then_get (-13) 5 0x08001235
                (Build_Vectors 0x08000000 (fun _ => 0)) H1 H2 H3 H4) as (Hg & Ho & _).
  split; [exact H1|]. split; [exact H2|]. split; [exact H3|]. split; [exact H4|].
  split; [exact Hg | exact Ho].
Defined.
